(** * whooktown Go SDK: the resilient HTTP transport and its error classifier

    A shallow embedding of [http.go] (retry loop, single attempt, classifier),
    of the error types it returns, and of the client construction in
    [New]/[options.go], followed by the properties of the transport that the
    design document states.

    Conventions.
    - Go [int] and [time.Duration] are 64-bit; they are [Z] here and the one
      arithmetic operation the transport performs on them (the backoff
      product) is wrapped explicitly with [wrap64].
    - Go strings are Rocq strings, [[]byte] is [list Byte.byte].
    - Go's [error] results of the transport are [option sdkerror]: [None] is
      [nil], the two constructors are the two dynamic types [*Error] and
      [*QuotaError].
    - Everything that lives outside the repository (encoding/json, net/url,
      net/http, the context, the clock) is a field of the class [Env]. *)

From Stdlib Require Import ZArith Ascii String List DecimalString Lia.
From Stdlib Require Import Floats.SpecFloat.
From stdpp Require Import base strings gmap list.

Set Warnings "-register-all".
Open Scope string_scope.
Open Scope Z_scope.

(** ** Machine integers *)

Definition min_int : Z := - 2 ^ 63.
Definition max_int : Z := 2 ^ 63 - 1.

Definition in_int (z : Z) : bool := (min_int <=? z) && (z <=? max_int).

(** Two's complement wrap-around of a 64-bit signed result. *)
Definition wrap64 (z : Z) : Z := (z + 2 ^ 63) mod 2 ^ 64 - 2 ^ 63.

(** [time.Second], in nanoseconds. *)
Definition Second : Z := 1000000000.

(** [%d] of fmt.Sprintf. *)
Definition fmt_d (z : Z) : string := NilZero.string_of_int (Z.to_int z).

(** ** Dynamic values: what encoding/json stores in an [interface{}] *)

Inductive value :=
| VNil
| VBool (b : bool)
| VFloat64 (f : spec_float)
| VString (s : string)
| VArray (l : list value)
| VMap (m : gmap string value).

(** The mathematical integer part of a float64, rounding toward zero;
    undefined on NaN and the infinities. *)
Definition trunc_float64 (f : spec_float) : option Z :=
  match f with
  | S754_zero _ => Some 0
  | S754_finite s m e =>
      let mag := Z.shiftl (Z.pos m) e in
      Some (if s then - mag else mag)
  | S754_infinity _ | S754_nan => None
  end.

(** ** Errors of lower layers (the [Cause] of an SDK error) *)

Inductive liberror :=
| ContextCanceled
| ContextDeadlineExceeded
| LibError (msg : string).

(** ** errors.go *)

Definition ErrorCode := string.

Definition ErrUnauthorized : ErrorCode := "unauthorized".
Definition ErrForbidden : ErrorCode := "forbidden".
Definition ErrNotFound : ErrorCode := "not_found".
Definition ErrBadRequest : ErrorCode := "bad_request".
Definition ErrQuotaExceeded : ErrorCode := "quota_exceeded".
Definition ErrInternalServer : ErrorCode := "internal_server".
Definition ErrNetworkError : ErrorCode := "network_error".
Definition ErrValidation : ErrorCode := "validation_error".
Definition ErrTimeout : ErrorCode := "timeout".

Module Error.
Record t := mk {
  Code : ErrorCode;
  Message : string;
  StatusCode : Z;
  Details : option (gmap string value);
  Cause : option liberror
}.

(** The zero value of the struct. *)
Definition zero : t := mk "" "" 0 None None.

Definition with_Code (c : ErrorCode) (e : t) : t :=
  mk c (Message e) (StatusCode e) (Details e) (Cause e).
Definition with_Message (m : string) (e : t) : t :=
  mk (Code e) m (StatusCode e) (Details e) (Cause e).
Definition with_StatusCode (s : Z) (e : t) : t :=
  mk (Code e) (Message e) s (Details e) (Cause e).
Definition with_Details (d : option (gmap string value)) (e : t) : t :=
  mk (Code e) (Message e) (StatusCode e) d (Cause e).
Definition with_Cause (c : option liberror) (e : t) : t :=
  mk (Code e) (Message e) (StatusCode e) (Details e) c.
End Error.

Module QuotaError.
Record t := mk {
  Code : ErrorCode;
  Message : string;
  StatusCode : Z;
  Plan : string;
  Current : Z;
  Limit : Z;
  QuotaType : string
}.

Definition with_Plan (p : string) (q : t) : t :=
  mk (Code q) (Message q) (StatusCode q) p (Current q) (Limit q) (QuotaType q).
Definition with_Current (n : Z) (q : t) : t :=
  mk (Code q) (Message q) (StatusCode q) (Plan q) n (Limit q) (QuotaType q).
Definition with_Limit (n : Z) (q : t) : t :=
  mk (Code q) (Message q) (StatusCode q) (Plan q) (Current q) n (QuotaType q).
Definition with_QuotaType (s : string) (q : t) : t :=
  mk (Code q) (Message q) (StatusCode q) (Plan q) (Current q) (Limit q) s.
End QuotaError.

(** A non-nil [error] returned by the transport: its dynamic type is
    [*Error] or [*QuotaError]. *)
Inductive sdkerror :=
| ErrorPtr (e : Error.t)
| QuotaErrorPtr (q : QuotaError.t).

Definition is_QuotaError (err : sdkerror) : bool :=
  match err with QuotaErrorPtr _ => true | ErrorPtr _ => false end.

Definition message_of (err : sdkerror) : string :=
  match err with
  | ErrorPtr e => Error.Message e
  | QuotaErrorPtr q => QuotaError.Message q
  end.

Definition status_of (err : sdkerror) : Z :=
  match err with
  | ErrorPtr e => Error.StatusCode e
  | QuotaErrorPtr q => QuotaError.StatusCode q
  end.

Definition code_of (err : sdkerror) : ErrorCode :=
  match err with
  | ErrorPtr e => Error.Code e
  | QuotaErrorPtr q => QuotaError.Code q
  end.

(** ** http.go: requests, responses and the environment *)

(** The anonymous struct [errResp] of parseHTTPError after a successful
    json.Unmarshal; [Details = None] is the nil map. *)
Module errResp.
Record t := mk {
  Message : string;
  Error : string;
  Code : string;
  Details : option (gmap string value)
}.
End errResp.

Definition Header := list (string * string).

(** Header.Set on keys that are already canonical. *)
Definition Header_Set (key val : string) (h : Header) : Header :=
  if existsb (fun kv => String.eqb (fst kv) key) h
  then map (fun kv => if String.eqb (fst kv) key then (key, val) else kv) h
  else (h ++ [(key, val)])%list.

Record Request := mkRequest {
  req_method : string;
  req_url : string;
  req_body : option (list Byte.byte);
  req_header : Header
}.

(** What one round trip (client.Do followed by io.ReadAll) can yield. *)
Inductive roundtrip :=
| DoFailed (err : liberror)
| ReadFailed (status : Z) (err : liberror)
| Response (status : Z) (body : list Byte.byte).

Class Env := {
  (** values passed as request bodies, and values behind result pointers *)
  any : Type;
  dest : Type;
  (** the http.Client in use *)
  http_Client : Type;
  http_Client_Timeout : Z -> http_Client;
  (** the state of everything outside the process: server, network, clock,
      and the caller's context *)
  world : Type;
  (** context.Context values *)
  context : Type;
  url_JoinPath : string -> string -> liberror + string;
  json_Marshal : any -> liberror + list Byte.byte;
  (** json.Unmarshal(body, &errResp): [None] when it returns an error *)
  json_Unmarshal_errResp : list Byte.byte -> option errResp.t;
  (** json.Unmarshal(respBody, result): the error, and the destination as it
      is left *)
  json_Unmarshal : list Byte.byte -> dest -> option liberror * dest;
  (** http.NewRequestWithContext(ctx, method, url, body): its error, if any *)
  http_NewRequestWithContext :
    context -> string -> string -> option (list Byte.byte) -> option liberror;
  client_Do : http_Client -> context -> Request -> world -> roundtrip * world;
  (** the select of the backoff: [Some err] when ctx.Done() is taken, with
      [err] the value of ctx.Err(); [None] when the timer fires *)
  select_Done_or_After : context -> Z -> world -> option liberror * world;
  (** int(f) where f is not representable in int (implementation-specific) *)
  int_unrepresentable : spec_float -> Z
}.

(** Go's conversion [int(f)] of a float64. *)
Definition int_of_float64 `{Env} (f : spec_float) : Z :=
  match trunc_float64 f with
  | Some z => if in_int z then z else int_unrepresentable f
  | None => int_unrepresentable f
  end.

(** *** parseHTTPError *)

Definition is_quota_code (code : string) : bool :=
  String.eqb code "QUOTA_EXCEEDED"
  || String.eqb code "ASSET_QUOTA_EXCEEDED"
  || String.eqb code "LAYOUT_QUOTA_EXCEEDED".

Definition is_empty (s : string) : bool := String.eqb s "".

(** One arm of the switch: set the code, and the message if it is empty. *)
Definition set_code_default (code : ErrorCode) (msg : string) (e : Error.t)
  : Error.t :=
  let e := Error.with_Code code e in
  if is_empty (Error.Message e) then Error.with_Message msg e else e.

Definition quota_details `{Env} (details : gmap string value)
    (qe : QuotaError.t) : QuotaError.t :=
  let qe := match details !! "plan" with
            | Some (VString plan) => QuotaError.with_Plan plan qe
            | _ => qe
            end in
  let qe := match details !! "current" with
            | Some (VFloat64 current) =>
                QuotaError.with_Current (int_of_float64 current) qe
            | _ => qe
            end in
  let qe := match details !! "limit" with
            | Some (VFloat64 limit) =>
                QuotaError.with_Limit (int_of_float64 limit) qe
            | _ => qe
            end in
  match details !! "type" with
  | Some (VString typ) => QuotaError.with_QuotaType typ qe
  | _ => qe
  end.

Definition status_switch (statusCode : Z) (e : Error.t) : Error.t :=
  if statusCode =? 401 then set_code_default ErrUnauthorized "unauthorized" e
  else if statusCode =? 403 then set_code_default ErrForbidden "forbidden" e
  else if statusCode =? 404 then set_code_default ErrNotFound "not found" e
  else if statusCode =? 400 then set_code_default ErrBadRequest "bad request" e
  else if statusCode =? 402 then
    set_code_default ErrQuotaExceeded "quota exceeded" e
  else
    set_code_default ErrInternalServer
      ("server error: " +:+ fmt_d statusCode) e.

Definition parseHTTPError `{Env} (statusCode : Z) (body : list Byte.byte)
  : sdkerror :=
  let e := Error.with_StatusCode statusCode Error.zero in
  match json_Unmarshal_errResp body with
  | Some r =>
      let e :=
        if negb (is_empty (errResp.Message r)) then
          Error.with_Message (errResp.Message r) e
        else if negb (is_empty (errResp.Error r)) then
          Error.with_Message (errResp.Error r) e
        else e in
      if is_quota_code (errResp.Code r) then
        let qe := QuotaError.mk ErrQuotaExceeded (Error.Message e) statusCode
                    "" 0 0 "" in
        match errResp.Details r with
        | Some details => QuotaErrorPtr (quota_details details qe)
        | None => QuotaErrorPtr qe
        end
      else
        ErrorPtr (status_switch statusCode
                    (Error.with_Details (errResp.Details r) e))
  | None =>
      let e := if (0 <? length body)%nat
               then Error.with_Message (string_of_list_byte body) e
               else e in
      ErrorPtr (status_switch statusCode e)
  end.

(** *** The transport *)

Record httpClient `{Env} := mkHttpClient {
  client : http_Client;
  baseURL : string;
  token : string;
  adminToken : string;
  debug : bool;
  maxRetries : Z;
  retryWait : Z
}.

(** strings.TrimSuffix *)
Definition TrimSuffix (s suffix : string) : string :=
  let n := String.length s in
  let k := String.length suffix in
  if (k <=? n)%nat && String.eqb (substring (n - k) k s) suffix
  then substring 0 (n - k) s
  else s.

Definition newHTTPClient `{Env} (cl : http_Client) (base : string)
  : httpClient :=
  {| client := cl;
     baseURL := TrimSuffix base "/";
     token := "";
     adminToken := "";
     debug := false;
     maxRetries := 3;
     retryWait := Second |}.

Definition SetToken `{Env} (tok : string) (c : httpClient) : httpClient :=
  mkHttpClient _ (client c) (baseURL c) tok (adminToken c) (debug c)
    (maxRetries c) (retryWait c).

Definition SetAdminToken `{Env} (tok : string) (c : httpClient) : httpClient :=
  mkHttpClient _ (client c) (baseURL c) (token c) tok (debug c)
    (maxRetries c) (retryWait c).

(** What a call does to the outside, in the order it happens.  [EvAttempt]
    is a ghost event: it records that executeRequest returned [r] on the
    attempt with index [a]. *)
Inductive event :=
| EvWaited (d : Z)
| EvCancelled (d : Z) (err : liberror)
| EvDo (req : Request)
| EvAttempt (a : Z) (r : option sdkerror).

(** Addresses of decoding destinations. *)
Definition loc := positive.

Record state `{Env} := mkState {
  st_world : world;
  st_heap : gmap loc dest;
  st_trace : list event
}.

Definition M `{Env} (A : Type) : Type := state -> A * state.

Definition ret `{Env} {A} (a : A) : M A := fun s => (a, s).

Definition bind `{Env} {A B} (m : M A) (k : A -> M B) : M B :=
  fun s => let (a, s') := m s in k a s'.

Notation "'let*' x ':=' m 'in' k" := (bind m (fun x => k))
  (at level 10, x name, m at level 100, k at level 200).

Definition emit `{Env} (ev : event) : M unit :=
  fun s => (tt, mkState _ (st_world s) (st_heap s) (st_trace s ++ [ev])%list).

(** The select statement of the backoff. *)
Definition backoff `{Env} (ctx : context) (d : Z) : M (option liberror) :=
  fun s =>
    let (r, w) := select_Done_or_After ctx d (st_world s) in
    let ev := match r with
              | Some err => EvCancelled d err
              | None => EvWaited d
              end in
    (r, mkState _ w (st_heap s) (st_trace s ++ [ev])%list).

(** client.Do and io.ReadAll. *)
Definition send `{Env} (cl : http_Client) (ctx : context) (req : Request)
  : M roundtrip :=
  fun s =>
    let (r, w) := client_Do cl ctx req (st_world s) in
    (r, mkState _ w (st_heap s) (st_trace s ++ [EvDo req])%list).

(** json.Unmarshal(respBody, result) for a non-nil [result]; a pointer that
    addresses nothing is rejected by the decoder. *)
Definition decode `{Env} (respBody : list Byte.byte) (result : loc)
  : M (option liberror) :=
  fun s =>
    match st_heap s !! result with
    | Some v =>
        let (err, v') := json_Unmarshal respBody v in
        (err, mkState _ (st_world s) (<[result := v']> (st_heap s))
                (st_trace s))
    | None => (Some (LibError "json: Unmarshal(nil)"), s)
    end.

Definition set_headers `{Env} (c : httpClient) : Header :=
  let h := Header_Set "Content-Type" "application/json" [] in
  let h := Header_Set "Accept" "application/json" h in
  let h := if negb (is_empty (token c))
           then Header_Set "Authorization" ("Bearer " +:+ token c) h
           else h in
  if negb (is_empty (adminToken c))
  then Header_Set "X-Admin-Token" (adminToken c) h
  else h.

Definition new_error (code : ErrorCode) (msg : string) (cause : liberror)
  : option sdkerror :=
  Some (ErrorPtr (Error.mk code msg 0 None (Some cause))).

Definition executeRequest `{Env} (c : httpClient) (ctx : context)
    (method path : string) (body : option any) (result : option loc)
  : M (option sdkerror) :=
  match url_JoinPath (baseURL c) path with
  | inl err => ret (new_error ErrValidation ("invalid path: " +:+ path) err)
  | inr reqURL =>
      let marshalled :=
        match body with
        | Some b =>
            match json_Marshal b with
            | inl err => inl err
            | inr jsonBody => inr (Some jsonBody)
            end
        | None => inr None
        end in
      match marshalled with
      | inl err =>
          ret (new_error ErrValidation "failed to marshal request body" err)
      | inr bodyReader =>
          match http_NewRequestWithContext ctx method reqURL bodyReader with
          | Some err =>
              ret (new_error ErrNetworkError "failed to create request" err)
          | None =>
              let req := mkRequest method reqURL bodyReader (set_headers c) in
              let* rt := send (client c) ctx req in
              match rt with
              | DoFailed err =>
                  ret (new_error ErrNetworkError "request failed" err)
              | ReadFailed _ err =>
                  ret (new_error ErrNetworkError
                         "failed to read response body" err)
              | Response status respBody =>
                  if 400 <=? status then
                    ret (Some (parseHTTPError status respBody))
                  else
                    match result with
                    | Some dst =>
                        if (0 <? length respBody)%nat then
                          let* err := decode respBody dst in
                          match err with
                          | Some cause =>
                              ret (new_error ErrInternalServer
                                     "failed to parse response" cause)
                          | None => ret None
                          end
                        else ret None
                    | None => ret None
                    end
              end
          end
      end
  end.

(** The type assertion of [err] to [*Error], then the status test. *)
Definition is_client_error (err : sdkerror) : bool :=
  match err with
  | ErrorPtr e => (400 <=? Error.StatusCode e) && (Error.StatusCode e <? 500)
  | QuotaErrorPtr _ => false
  end.

Definition cancelled_error (cause : liberror) : sdkerror :=
  ErrorPtr (Error.mk ErrTimeout "request cancelled" 0 None (Some cause)).

(** The body of the for loop of doRequest; [n] is the number of iterations
    the loop condition still admits. *)
Fixpoint retry_loop `{Env} (n : nat) (attempt : Z) (lastErr : option sdkerror)
    (c : httpClient) (ctx : context) (method path : string)
    (body : option any) (result : option loc) : M (option sdkerror) :=
  match n with
  | O => ret lastErr
  | S n' =>
      let* done := (if 0 <? attempt
               then backoff ctx (wrap64 (retryWait c * attempt))
               else ret None) in
      match done with
      | Some cause => ret (Some (cancelled_error cause))
      | None =>
          let* err := executeRequest c ctx method path body result in
          let* _u := emit (EvAttempt attempt err) in
          match err with
          | None => ret None
          | Some e =>
              if is_client_error e then ret err
              else retry_loop n' (attempt + 1) err c ctx method path
                     body result
          end
      end
  end.

(** The loop runs for attempt = 0 .. maxRetries, that is maxRetries + 1
    times at most, and not at all for a negative maxRetries.  (With
    maxRetries = MaxInt64 the counter of the Go loop would wrap instead of
    passing the bound; the theorems on the number of attempts exclude that
    value.  The transports of this repository have maxRetries = 3.) *)
Definition doRequest `{Env} (c : httpClient) (ctx : context)
    (method path : string) (body : option any) (result : option loc)
  : M (option sdkerror) :=
  retry_loop (Z.to_nat (maxRetries c + 1)) 0 None c ctx method path
    body result.

Definition Get `{Env} (c : httpClient) ctx path result :=
  doRequest c ctx "GET" path None result.
Definition Post `{Env} (c : httpClient) ctx path body result :=
  doRequest c ctx "POST" path body result.
Definition Put `{Env} (c : httpClient) ctx path body result :=
  doRequest c ctx "PUT" path body result.
Definition Patch `{Env} (c : httpClient) ctx path body result :=
  doRequest c ctx "PATCH" path body result.
Definition Delete `{Env} (c : httpClient) ctx path :=
  doRequest c ctx "DELETE" path None None.

(** ** options.go and the client constructor *)

Definition Environment := string.
Definition EnvProduction : Environment := "PROD".
Definition EnvDevelopment : Environment := "DEV".

Definition ProdAuthURL := "https://auth.whook.town".
Definition ProdSensorURL := "https://sensors.whook.town".
Definition ProdUIURL := "https://api.whook.town".
Definition ProdWorkflowURL := "https://api.whook.town".
Definition ProdBackofficeURL := "https://admin.whook.town".
Definition ProdSSEURL := "https://ws.whook.town".
Definition ProdSubscriptionURL := "https://subscription.whook.town".
Definition ProdAudioStreamURL := "https://stream.whook.town".

Definition DevAuthURL := "https://auth.dev.whook.town".
Definition DevSensorURL := "https://sensors.dev.whook.town".
Definition DevUIURL := "https://api.dev.whook.town".
Definition DevWorkflowURL := "https://api.dev.whook.town".
Definition DevBackofficeURL := "https://admin.dev.whook.town".
Definition DevSSEURL := "https://ws.dev.whook.town".
Definition DevSubscriptionURL := "https://subscription.dev.whook.town".
Definition DevAudioStreamURL := "https://stream.dev.whook.town".

Record Config `{Env} := mkConfig {
  AuthURL : string;
  SensorURL : string;
  UIURL : string;
  WorkflowURL : string;
  BackofficeURL : string;
  SSEURL : string;
  SubscriptionURL : string;
  AudioStreamURL : string;
  Token : string;
  AdminSecret : string;
  Timeout : Z;
  MaxRetries : Z;
  RetryWait : Z;
  HTTPClient : option http_Client;
  Debug : bool
}.

(** An option mutates the configuration it is handed. *)
Definition Option `{Env} : Type := Config -> Config.

Definition getEnvironmentFromEnv (getenv : string -> string) : Environment :=
  if String.eqb (getenv "WHOOKTOWN_ENV") "DEV" then EnvDevelopment
  else EnvProduction.

Definition configForEnvironment `{Env} (env : Environment) : Config :=
  if String.eqb env EnvDevelopment then
    mkConfig _ DevAuthURL DevSensorURL DevUIURL DevWorkflowURL
      DevBackofficeURL DevSSEURL DevSubscriptionURL DevAudioStreamURL
      "" "" (30 * Second) 3 Second None false
  else
    mkConfig _ ProdAuthURL ProdSensorURL ProdUIURL ProdWorkflowURL
      ProdBackofficeURL ProdSSEURL ProdSubscriptionURL ProdAudioStreamURL
      "" "" (30 * Second) 3 Second None false.

Definition defaultConfig `{Env} (getenv : string -> string) : Config :=
  configForEnvironment (getEnvironmentFromEnv getenv).

Definition validate `{Env} (c : Config) : option sdkerror := None.

Definition WithToken `{Env} (tok : string) : Option := fun c =>
  mkConfig _ (AuthURL c) (SensorURL c) (UIURL c) (WorkflowURL c)
    (BackofficeURL c) (SSEURL c) (SubscriptionURL c) (AudioStreamURL c)
    tok (AdminSecret c) (Timeout c) (MaxRetries c) (RetryWait c)
    (HTTPClient c) (Debug c).

Definition WithAdminSecret `{Env} (secret : string) : Option := fun c =>
  mkConfig _ (AuthURL c) (SensorURL c) (UIURL c) (WorkflowURL c)
    (BackofficeURL c) (SSEURL c) (SubscriptionURL c) (AudioStreamURL c)
    (Token c) secret (Timeout c) (MaxRetries c) (RetryWait c)
    (HTTPClient c) (Debug c).

Definition WithTimeout `{Env} (timeout : Z) : Option := fun c =>
  mkConfig _ (AuthURL c) (SensorURL c) (UIURL c) (WorkflowURL c)
    (BackofficeURL c) (SSEURL c) (SubscriptionURL c) (AudioStreamURL c)
    (Token c) (AdminSecret c) timeout (MaxRetries c) (RetryWait c)
    (HTTPClient c) (Debug c).

Definition WithHTTPClient `{Env} (cl : option http_Client) : Option := fun c =>
  mkConfig _ (AuthURL c) (SensorURL c) (UIURL c) (WorkflowURL c)
    (BackofficeURL c) (SSEURL c) (SubscriptionURL c) (AudioStreamURL c)
    (Token c) (AdminSecret c) (Timeout c) (MaxRetries c) (RetryWait c)
    cl (Debug c).

Definition WithRetry `{Env} (maxRetries' retryWait' : Z) : Option := fun c =>
  mkConfig _ (AuthURL c) (SensorURL c) (UIURL c) (WorkflowURL c)
    (BackofficeURL c) (SSEURL c) (SubscriptionURL c) (AudioStreamURL c)
    (Token c) (AdminSecret c) (Timeout c) maxRetries' retryWait'
    (HTTPClient c) (Debug c).

Definition WithDebug `{Env} (dbg : bool) : Option := fun c =>
  mkConfig _ (AuthURL c) (SensorURL c) (UIURL c) (WorkflowURL c)
    (BackofficeURL c) (SSEURL c) (SubscriptionURL c) (AudioStreamURL c)
    (Token c) (AdminSecret c) (Timeout c) (MaxRetries c) (RetryWait c)
    (HTTPClient c) dbg.

(** The service clients (AuthClient, SensorsClient, ...) are structs with
    the single field [http]; each is represented by the transport it
    holds. *)
Record Client `{Env} := mkClient {
  config : Config;
  cl_httpClient : http_Client;
  Auth : httpClient;
  Sensors : httpClient;
  UI : httpClient;
  Camera : httpClient;
  Traffic : httpClient;
  Popup : httpClient;
  Groups : httpClient;
  Workflow : httpClient;
  Backoffice : httpClient
}.

Definition New `{Env} (getenv : string -> string) (opts : list Option)
  : sdkerror + Client :=
  let cfg := fold_left (fun cfg opt => opt cfg) opts (defaultConfig getenv) in
  match validate cfg with
  | Some err => inl err
  | None =>
      let httpClient :=
        match HTTPClient cfg with
        | Some cl => cl
        | None => http_Client_Timeout (Timeout cfg)
        end in
      let authHTTP := SetToken (Token cfg)
                        (newHTTPClient httpClient (AuthURL cfg)) in
      let sensorHTTP := SetToken (Token cfg)
                          (newHTTPClient httpClient (SensorURL cfg)) in
      let uiHTTP := SetToken (Token cfg)
                      (newHTTPClient httpClient (UIURL cfg)) in
      let workflowHTTP := SetToken (Token cfg)
                            (newHTTPClient httpClient (WorkflowURL cfg)) in
      let backofficeHTTP :=
        SetAdminToken (AdminSecret cfg)
          (newHTTPClient httpClient (BackofficeURL cfg)) in
      inr (mkClient _ cfg httpClient authHTTP sensorHTTP uiHTTP uiHTTP uiHTTP
             uiHTTP uiHTTP workflowHTTP backofficeHTTP)
  end.

Definition GetConfig `{Env} (c : Client) : Config := config c.

(** Every transport a client holds. *)
Definition transports `{Env} (c : Client) : list httpClient :=
  [Auth c; Sensors c; UI c; Camera c; Traffic c; Popup c; Groups c;
   Workflow c; Backoffice c].

(** ** A scripted environment

    [scripted server cancel] is an environment in which the [i]-th round
    trip of a call yields [server i] and the [j]-th backoff select yields
    [cancel j].  The codecs are tables over the few payloads the examples
    exchange; they agree with encoding/json and net/url on those payloads. *)

Module Scripted.

Inductive payload :=
| PString (s : string)      (* a Go string *)
| PChan.                    (* a channel: not serializable *)

Definition quote (s : string) : string :=
  String (Ascii.ascii_of_nat 34) (s +:+ String (Ascii.ascii_of_nat 34) "").

Definition marshal (v : payload) : liberror + list Byte.byte :=
  match v with
  | PString s => inr (list_byte_of_string (quote s))
  | PChan => inl (LibError "json: unsupported type: chan int")
  end.

(** 5.0 as a binary64: mantissa of 53 bits, exponent -50. *)
Definition float64_5 : spec_float := S754_finite false 5629499534213120 (-50).

Definition asset_quota_details : gmap string value :=
  <["plan" := VString "free"]>
    (<["current" := VFloat64 float64_5]>
       (<["limit" := VFloat64 float64_5]>
          (<["type" := VString "assets"]> ∅))).

(** The error bodies of the examples, by content. *)
Definition body_quota : string := "{!code!:!QUOTA_EXCEEDED!,!message!:!plan limit reached!}".
Definition body_asset_quota : string :=
  "{!code!:!ASSET_QUOTA_EXCEEDED!,!details!:{!plan!:!free!,!current!:5,!limit!:5,!type!:!assets!}}".
Definition body_message : string := "{!message!:!layout is locked!,!error!:!locked!}".
Definition body_error_only : string := "{!error!:!locked!}".
Definition body_empty_object : string := "{}".
Definition body_plain_text : string := "upstream unavailable".

(** The bodies above are written with [!] for the double quote. *)
Fixpoint unbang (s : string) : string :=
  match s with
  | EmptyString => EmptyString
  | String c rest =>
      String (if Ascii.eqb c "!"%char then Ascii.ascii_of_nat 34 else c)
        (unbang rest)
  end.

Definition wire (s : string) : list Byte.byte :=
  list_byte_of_string (unbang s).

Definition errResp_table : list (string * errResp.t) :=
  [ (body_quota,
     errResp.mk "plan limit reached" "" "QUOTA_EXCEEDED" None);
    (body_asset_quota,
     errResp.mk "" "" "ASSET_QUOTA_EXCEEDED" (Some asset_quota_details));
    (body_message, errResp.mk "layout is locked" "locked" "" None);
    (body_error_only, errResp.mk "" "locked" "" None);
    (body_empty_object, errResp.mk "" "" "" None) ].

Fixpoint assoc {A} (key : string) (l : list (string * A)) : option A :=
  match l with
  | [] => None
  | (k, v) :: rest => if String.eqb k key then Some v else assoc key rest
  end.

Definition unmarshal_errResp (body : list Byte.byte) : option errResp.t :=
  assoc (string_of_list_byte body)
    (map (fun kv => (unbang (fst kv), snd kv)) errResp_table).

(** Destinations are Go strings; only a quoted string decodes. *)
Definition unmarshal (body : list Byte.byte) (d : string)
  : option liberror * string :=
  match string_of_list_byte body with
  | String q rest =>
      if Ascii.eqb q (Ascii.ascii_of_nat 34) && (0 <? String.length rest)%nat
      then (None, substring 0 (String.length rest - 1) rest)
      else (Some (LibError "json: cannot unmarshal into Go value"), d)
  | EmptyString => (Some (LibError "unexpected end of JSON input"), d)
  end.

Definition scripted (server : nat -> roundtrip)
    (cancel : nat -> option liberror) : Env := {|
  any := payload;
  dest := string;
  http_Client := Z;
  http_Client_Timeout := fun t => t;
  world := nat * nat;
  context := unit;
  url_JoinPath := fun base path => inr (base +:+ path);
  json_Marshal := marshal;
  json_Unmarshal_errResp := unmarshal_errResp;
  json_Unmarshal := unmarshal;
  http_NewRequestWithContext := fun _ _ _ _ => None;
  client_Do := fun _ _ _ w => (server (fst w), (S (fst w), snd w));
  select_Done_or_After := fun _ _ w => (cancel (snd w), (fst w, S (snd w)));
  int_unrepresentable := fun _ => min_int
|}.

Definition always (rt : roundtrip) : nat -> roundtrip := fun _ => rt.

Definition never : nat -> option liberror := fun _ => None.

(** The context is cancelled during the wait number [k]. *)
Definition cancelled_in_wait (k : nat) : nat -> option liberror :=
  fun j => if (j =? k)%nat then Some ContextCanceled else None.

(** A server that answers 500 with a plain text body. *)
Definition failing_server : Env :=
  scripted (always (Response 500 (wire body_plain_text))) never.

(** A server that answers 402 with the QUOTA_EXCEEDED body. *)
Definition quota_server : Env :=
  scripted (always (Response 402 (wire body_quota))) never.

(** An unreachable server, and a caller that gives up during the second
    wait. *)
Definition unreachable_cancelled : Env :=
  scripted (always (DoFailed (LibError "connection refused")))
    (cancelled_in_wait 1).

(** A server that answers 204 without a body. *)
Definition no_content_server : Env :=
  scripted (always (Response 204 [])) never.

(** The transport of the UI service of a client built with a token. *)
Definition api (E : Env) : @httpClient E :=
  @SetToken E "secret-token"
    (@newHTTPClient E (@http_Client_Timeout E (30 * Second)) ProdUIURL).

Definition start (E : Env) (w : @world E) : @state E := @mkState E w ∅ [].

(** A run that starts with one destination holding a value. *)
Definition start_with (E : Env) (w : @world E) (l : loc) (v : @dest E)
  : @state E := @mkState E w {[ l := v ]} [].

End Scripted.

(** ** The classifier as the design document words it *)

Definition quota_codes : list string :=
  ["QUOTA_EXCEEDED"; "ASSET_QUOTA_EXCEEDED"; "LAYOUT_QUOTA_EXCEEDED"].

(** Status, kind, default message; any status not listed is internal-server
    with the message "server error: <status>". *)
Definition kind_table : list (Z * (ErrorCode * string)) :=
  [ (401, (ErrUnauthorized, "unauthorized"));
    (403, (ErrForbidden, "forbidden"));
    (404, (ErrNotFound, "not found"));
    (400, (ErrBadRequest, "bad request"));
    (402, (ErrQuotaExceeded, "quota exceeded")) ].

Fixpoint table_find {A} (status : Z) (l : list (Z * A)) : option A :=
  match l with
  | [] => None
  | (k, v) :: rest => if k =? status then Some v else table_find status rest
  end.

Definition kind_of_status (status : Z) : ErrorCode :=
  match table_find status kind_table with
  | Some (kind, _) => kind
  | None => ErrInternalServer
  end.

Definition default_message (status : Z) : string :=
  match table_find status kind_table with
  | Some (_, msg) => msg
  | None => "server error: " +:+ fmt_d status
  end.

(** Prefer the first candidate that is not blank, else leave blank. *)
Definition first_nonblank (candidates : list string) : string :=
  hd "" (filter (fun s => negb (is_empty s)) candidates).

(** The message taken from the body: [message] over [error] when the body
    parses, the raw text otherwise. *)
Definition extracted_message `{Env} (body : list Byte.byte) : string :=
  match json_Unmarshal_errResp body with
  | Some r => first_nonblank [errResp.Message r; errResp.Error r]
  | None => string_of_list_byte body
  end.

(** The body parses and its [code] is one of the quota codes. *)
Definition quota_match `{Env} (body : list Byte.byte) : bool :=
  match json_Unmarshal_errResp body with
  | Some r => bool_decide (errResp.Code r ∈ quota_codes)
  | None => false
  end.

Definition detail (r : errResp.t) (key : string) : option value :=
  match errResp.Details r with
  | Some details => details !! key
  | None => None
  end.

Definition detail_string (r : errResp.t) (key : string) : string :=
  match detail r key with
  | Some (VString s) => s
  | _ => ""
  end.

Definition detail_int `{Env} (r : errResp.t) (key : string) : Z :=
  match detail r key with
  | Some (VFloat64 f) => int_of_float64 f
  | _ => 0
  end.

(** ** Observations on traces *)

(** The schedule of a call: its waits and its attempts, in order, without
    the payloads. *)
Inductive step :=
| Wait (d : Z)
| Abort (d : Z)
| Attempt (a : Z).

Definition step_of (ev : event) : option step :=
  match ev with
  | EvWaited d => Some (Wait d)
  | EvCancelled d _ => Some (Abort d)
  | EvAttempt a _ => Some (Attempt a)
  | EvDo _ => None
  end.

Definition schedule (evs : list event) : list step := omap step_of evs.

Definition attempt_result (ev : event) : option (option sdkerror) :=
  match ev with
  | EvAttempt _ r => Some r
  | _ => None
  end.

(** The results of the attempts, in order. *)
Definition attempt_results (evs : list event) : list (option sdkerror) :=
  omap attempt_result evs.

Definition is_send (ev : event) : bool :=
  match ev with EvDo _ => true | _ => false end.

(** The number of requests put on the network. *)
Definition sends (evs : list event) : nat := length (filter is_send evs).

Definition is_cancel (ev : event) : bool :=
  match ev with EvCancelled _ _ => true | _ => false end.

(** Linear backoff: attempts [a], [a+1], ... ([n] of them), each attempt
    with a positive index preceded by a wait of [rw * index]. *)
Fixpoint linear_schedule (rw : Z) (a : Z) (n : nat) : list step :=
  match n with
  | O => []
  | S n' =>
      ((if 0 <? a then [Wait (wrap64 (rw * a))] else []) ++ [Attempt a]
       ++ linear_schedule rw (a + 1) n')%list
  end.

(** A round trip after which the loop goes on: a network failure or a
    status of 500 and above. *)
Definition retryable (rt : roundtrip) : bool :=
  match rt with
  | DoFailed _ | ReadFailed _ _ => true
  | Response status _ => 500 <=? status
  end.

(** The request of an attempt, when building it succeeds. *)
Definition prepared `{Env} (c : httpClient) (ctx : context)
    (method path : string) (body : option any) (req : Request) : Prop :=
  exists reqURL bodyReader,
    url_JoinPath (baseURL c) path = inr reqURL /\
    match body with
    | Some b => exists jsonBody,
                  json_Marshal b = inr jsonBody /\ bodyReader = Some jsonBody
    | None => bodyReader = None
    end /\
    http_NewRequestWithContext ctx method reqURL bodyReader = None /\
    req = mkRequest method reqURL bodyReader (set_headers c).

(** ** errors.go: inspecting an error *)

(** Any Go [error] a caller may hand to the predicates: an error of the
    SDK, an error of another package (which wraps no SDK error), or an
    error that wraps another one, as fmt.Errorf does with the verb w. *)
Inductive goerror :=
| EOfSdk (e : sdkerror)
| EOfLib (l : liberror)
| EWrap (msg : string) (inner : goerror).

(** errors.As with a target of type [*Error].  A [*QuotaError] has no
    Unwrap method, so the search ends on it. *)
Fixpoint As_Error (err : goerror) : option Error.t :=
  match err with
  | EOfSdk (ErrorPtr e) => Some e
  | EOfSdk (QuotaErrorPtr _) => None
  | EOfLib _ => None
  | EWrap _ inner => As_Error inner
  end.

(** errors.As with a target of type [*QuotaError].  On an [*Error] the
    search goes on in its Cause, an error of another package. *)
Fixpoint As_QuotaError (err : goerror) : option QuotaError.t :=
  match err with
  | EOfSdk (QuotaErrorPtr q) => Some q
  | EOfSdk (ErrorPtr _) => None
  | EOfLib _ => None
  | EWrap _ inner => As_QuotaError inner
  end.

(** The predicates take an [error] that may be nil. *)
Definition errors_As_Error (err : option goerror) : option Error.t :=
  match err with
  | Some g => As_Error g
  | None => None
  end.

Definition errors_As_QuotaError (err : option goerror)
  : option QuotaError.t :=
  match err with
  | Some g => As_QuotaError g
  | None => None
  end.

Definition NewError (code : ErrorCode) (message : string) : Error.t :=
  Error.mk code message 0 None None.

Definition NewErrorWithCause (code : ErrorCode) (message : string)
    (cause : option liberror) : Error.t :=
  Error.mk code message 0 None cause.

Definition IsUnauthorized (err : option goerror) : bool :=
  match errors_As_Error err with
  | Some e => String.eqb (Error.Code e) ErrUnauthorized
  | None => false
  end.

Definition IsForbidden (err : option goerror) : bool :=
  match errors_As_Error err with
  | Some e => String.eqb (Error.Code e) ErrForbidden
  | None => false
  end.

Definition IsNotFound (err : option goerror) : bool :=
  match errors_As_Error err with
  | Some e => String.eqb (Error.Code e) ErrNotFound
  | None => false
  end.

Definition IsBadRequest (err : option goerror) : bool :=
  match errors_As_Error err with
  | Some e => String.eqb (Error.Code e) ErrBadRequest
  | None => false
  end.

Definition IsQuotaExceeded (err : option goerror) : bool :=
  match errors_As_Error err with
  | Some e => String.eqb (Error.Code e) ErrQuotaExceeded
  | None =>
      match errors_As_QuotaError err with
      | Some _ => true
      | None => false
      end
  end.

Definition IsNetworkError (err : option goerror) : bool :=
  match errors_As_Error err with
  | Some e => String.eqb (Error.Code e) ErrNetworkError
  | None => false
  end.

Definition IsTimeout (err : option goerror) : bool :=
  match errors_As_Error err with
  | Some e => String.eqb (Error.Code e) ErrTimeout
  | None => false
  end.

Definition GetErrorCode (err : option goerror) : ErrorCode * bool :=
  match errors_As_Error err with
  | Some e => (Error.Code e, true)
  | None => ("", false)
  end.

Definition GetStatusCode (err : option goerror) : Z * bool :=
  match errors_As_Error err with
  | Some e => (Error.StatusCode e, true)
  | None => (0, false)
  end.

(** The error a transport call returned, as the predicates receive it. *)
Definition returned (r : option sdkerror) : option goerror :=
  match r with
  | Some e => Some (EOfSdk e)
  | None => None
  end.

(** The seven predicates, in the order of the file. *)
Definition kind_predicates (err : option goerror) : list bool :=
  [IsUnauthorized err; IsForbidden err; IsNotFound err; IsBadRequest err;
   IsQuotaExceeded err; IsNetworkError err; IsTimeout err].

Definition count_true (l : list bool) : nat :=
  length (List.filter (fun b => b) l).

(** The kinds an error of the transport can carry. *)
Definition transport_kinds : list ErrorCode :=
  [ErrUnauthorized; ErrForbidden; ErrNotFound; ErrBadRequest;
   ErrQuotaExceeded; ErrInternalServer; ErrNetworkError; ErrValidation;
   ErrTimeout].

(** ** http.go: reading a header back *)

(** The value stored under a canonical key, if any. *)
Fixpoint Header_lookup (key : string) (h : Header) : option string :=
  match h with
  | [] => None
  | (k, v) :: rest => if String.eqb k key then Some v else Header_lookup key rest
  end.

(** ** options.go: the options that set URLs *)

Definition WithEnvironment `{Env} (env : Environment) : Option := fun c =>
  let envCfg := configForEnvironment env in
  mkConfig _ (AuthURL envCfg) (SensorURL envCfg) (UIURL envCfg)
    (WorkflowURL envCfg) (BackofficeURL envCfg) (SSEURL envCfg)
    (SubscriptionURL envCfg) (AudioStreamURL envCfg)
    (Token c) (AdminSecret c) (Timeout c) (MaxRetries c) (RetryWait c)
    (HTTPClient c) (Debug c).

Definition WithBaseURL `{Env} (base : string) : Option := fun c =>
  mkConfig _ base base base base base base base base
    (Token c) (AdminSecret c) (Timeout c) (MaxRetries c) (RetryWait c)
    (HTTPClient c) (Debug c).

Definition WithAuthURL `{Env} (url : string) : Option := fun c =>
  mkConfig _ url (SensorURL c) (UIURL c) (WorkflowURL c)
    (BackofficeURL c) (SSEURL c) (SubscriptionURL c) (AudioStreamURL c)
    (Token c) (AdminSecret c) (Timeout c) (MaxRetries c) (RetryWait c)
    (HTTPClient c) (Debug c).

(** An argument that is the empty string leaves its URL as it is. *)
Definition WithServices `{Env} (auth sensor ui workflow backoffice sse : string)
  : Option := fun c =>
  mkConfig _
    (if negb (is_empty auth) then auth else AuthURL c)
    (if negb (is_empty sensor) then sensor else SensorURL c)
    (if negb (is_empty ui) then ui else UIURL c)
    (if negb (is_empty workflow) then workflow else WorkflowURL c)
    (if negb (is_empty backoffice) then backoffice else BackofficeURL c)
    (if negb (is_empty sse) then sse else SSEURL c)
    (SubscriptionURL c) (AudioStreamURL c)
    (Token c) (AdminSecret c) (Timeout c) (MaxRetries c) (RetryWait c)
    (HTTPClient c) (Debug c).

(** ** The client: changing credentials after construction *)

Definition with_Token `{Env} (tok : string) (c : Config) : Config :=
  mkConfig _ (AuthURL c) (SensorURL c) (UIURL c) (WorkflowURL c)
    (BackofficeURL c) (SSEURL c) (SubscriptionURL c) (AudioStreamURL c)
    tok (AdminSecret c) (Timeout c) (MaxRetries c) (RetryWait c)
    (HTTPClient c) (Debug c).

Definition with_AdminSecret `{Env} (secret : string) (c : Config) : Config :=
  mkConfig _ (AuthURL c) (SensorURL c) (UIURL c) (WorkflowURL c)
    (BackofficeURL c) (SSEURL c) (SubscriptionURL c) (AudioStreamURL c)
    (Token c) secret (Timeout c) (MaxRetries c) (RetryWait c)
    (HTTPClient c) (Debug c).

(** Client.SetToken.  In Go the UI, Camera, Traffic, Popup and Groups
    clients point to one transport, which is therefore set five times to the
    same token; the record holds the value of that transport five times. *)
Definition Client_SetToken `{Env} (tok : string) (c : Client) : Client :=
  mkClient _ (with_Token tok (config c)) (cl_httpClient c)
    (SetToken tok (Auth c)) (SetToken tok (Sensors c)) (SetToken tok (UI c))
    (SetToken tok (Camera c)) (SetToken tok (Traffic c))
    (SetToken tok (Popup c)) (SetToken tok (Groups c))
    (SetToken tok (Workflow c)) (Backoffice c).

(** Client.SetAdminSecret. *)
Definition Client_SetAdminSecret `{Env} (secret : string) (c : Client)
  : Client :=
  mkClient _ (with_AdminSecret secret (config c)) (cl_httpClient c)
    (Auth c) (Sensors c) (UI c) (Camera c) (Traffic c) (Popup c) (Groups c)
    (Workflow c) (SetAdminToken secret (Backoffice c)).

(** The transports that carry the bearer token. *)
Definition user_transports `{Env} (c : Client) : list httpClient :=
  [Auth c; Sensors c; UI c; Camera c; Traffic c; Popup c; Groups c;
   Workflow c].

(** ** The sensors client *)

(** SensorsClient.Send; [data] is the pointer handed over as the body,
    which is a non-nil interface value even for a nil pointer. *)
Definition Send `{Env} (c : httpClient) (ctx : context) (data : any)
  : M (option sdkerror) :=
  Post c ctx "/sensors" (Some data) None.

(** SensorsClient.SendMultiple: one Send per element, in order, until one
    fails. *)
Fixpoint SendMultiple `{Env} (c : httpClient) (ctx : context)
    (data : list any) : M (option sdkerror) :=
  match data with
  | [] => ret None
  | d :: rest =>
      let* err := Send c ctx d in
      match err with
      | Some e => ret (Some e)
      | None => SendMultiple c ctx rest
      end
  end.

(** SensorsClient.Health. *)
Definition Sensors_Health `{Env} (c : httpClient) (ctx : context)
  : M (option sdkerror) :=
  Get c ctx "/sensors/_health" None.

(** ** More scripted runs *)

Module Scenarios.

(** A server that answers 404 with an empty JSON object. *)
Definition not_found_server : Env :=
  Scripted.scripted
    (Scripted.always (Response 404 (Scripted.wire Scripted.body_empty_object)))
    Scripted.never.

(** The JSON text of the string ok. *)
Definition body_ok : string := "!ok!".

(** A server that answers 200 with the JSON string ok. *)
Definition ok_server : Env :=
  Scripted.scripted
    (Scripted.always (Response 200 (Scripted.wire body_ok))) Scripted.never.

(** A server that answers 200 with a body that is not JSON. *)
Definition garbled_server : Env :=
  Scripted.scripted
    (Scripted.always (Response 200 (Scripted.wire Scripted.body_plain_text)))
    Scripted.never.

(** A server that accepts the first request and rejects the second with a
    400; it accepts what follows. *)
Definition second_rejected : Env :=
  Scripted.scripted
    (fun i => if (i =? 1)%nat
              then Response 400 (Scripted.wire Scripted.body_error_only)
              else Response 204 [])
    Scripted.never.

End Scenarios.

(** ** Auxiliary definitions for the proofs *)

(** The message assignment at the head of the parsed branch of
    parseHTTPError. *)
Definition with_body_message (r : errResp.t) (e : Error.t) : Error.t :=
  if negb (is_empty (errResp.Message r)) then
    Error.with_Message (errResp.Message r) e
  else if negb (is_empty (errResp.Error r)) then
    Error.with_Message (errResp.Error r) e
  else e.

Definition only_sends (evs : list event) : Prop :=
  Forall (fun ev => is_send ev = true) evs.

(** The head of a turn of the loop: the backoff, for a positive index. *)
Definition after_wait `{Env} (c : httpClient) (ctx : context) (a : Z)
    (s : state) : option liberror * state :=
  if 0 <? a then backoff ctx (wrap64 (retryWait c * a)) s else (None, s).

(** The state once the result of attempt [a] is recorded. *)
Definition logged `{Env} (a : Z) (r : option sdkerror) (s : state) : state :=
  mkState _ (st_world s) (st_heap s) (st_trace s ++ [EvAttempt a r])%list.

(** ** Properties of the classifier *)

Section Classifier.
Context `{Env}.

Lemma wrap64_in_range (z : Z) : in_int z = true -> wrap64 z = z.
Proof.
  unfold in_int, wrap64, min_int, max_int. intros Hz.
  apply andb_true_iff in Hz as [Hlo Hhi].
  apply Z.leb_le in Hlo, Hhi. rewrite Z.mod_small by lia. lia.
Qed.

Lemma is_empty_spec (s : string) : is_empty s = true <-> s = "".
Proof. unfold is_empty. apply String.eqb_eq. Qed.

Lemma is_quota_code_spec (code : string) :
  is_quota_code code = bool_decide (code ∈ quota_codes).
Proof.
  unfold is_quota_code, quota_codes.
  destruct (String.eqb_spec code "QUOTA_EXCEEDED") as [->|n1]; [done|].
  destruct (String.eqb_spec code "ASSET_QUOTA_EXCEEDED") as [->|n2]; [done|].
  destruct (String.eqb_spec code "LAYOUT_QUOTA_EXCEEDED") as [->|n3]; [done|].
  symmetry. apply bool_decide_eq_false.
  rewrite !elem_of_cons, elem_of_nil. tauto.
Qed.

Lemma status_switch_spec (st : Z) (e : Error.t) :
  status_switch st e =
    Error.mk (kind_of_status st)
      (if is_empty (Error.Message e) then default_message st
       else Error.Message e)
      (Error.StatusCode e) (Error.Details e) (Error.Cause e).
Proof.
  unfold status_switch, kind_of_status, default_message, kind_table.
  unfold set_code_default. destruct e as [c m s d cs]. cbn [table_find].
  rewrite !(Z.eqb_sym _ st). unfold is_empty. cbn.
  destruct (String.eqb m "");
    repeat (destruct (Z.eqb st _); [reflexivity|]); reflexivity.
Qed.

Lemma with_body_message_spec (r : errResp.t) (e : Error.t) :
  Error.Message e = "" ->
  with_body_message r e =
    Error.with_Message
      (first_nonblank [errResp.Message r; errResp.Error r]) e.
Proof.
  intros Hm. unfold with_body_message, first_nonblank. cbn [filter].
  unfold filter; cbn.
  destruct (is_empty (errResp.Message r)); cbn;
    [destruct (is_empty (errResp.Error r)); cbn|]; try reflexivity.
  destruct e; cbn in *; subst; reflexivity.
Qed.

Lemma string_of_nonempty_bytes (body : list Byte.byte) :
  body <> [] -> is_empty (string_of_list_byte body) = false.
Proof. destruct body; [congruence | reflexivity]. Qed.

Lemma parse_generic (st : Z) (body : list Byte.byte) :
  quota_match body = false ->
  parseHTTPError st body =
    ErrorPtr
      (Error.mk (kind_of_status st)
         (if is_empty (extracted_message body) then default_message st
          else extracted_message body)
         st
         (match json_Unmarshal_errResp body with
          | Some r => errResp.Details r
          | None => None
          end)
         None).
Proof.
  unfold quota_match, parseHTTPError, extracted_message.
  destruct (json_Unmarshal_errResp body) as [r|].
  - rewrite <- is_quota_code_spec. intros ->.
    fold (with_body_message r (Error.with_StatusCode st Error.zero)).
    rewrite with_body_message_spec by reflexivity.
    rewrite status_switch_spec. reflexivity.
  - intros _. rewrite status_switch_spec.
    destruct body; reflexivity.
Qed.

Lemma parse_quota (st : Z) (body : list Byte.byte) (r : errResp.t) :
  json_Unmarshal_errResp body = Some r ->
  errResp.Code r ∈ quota_codes ->
  parseHTTPError st body =
    QuotaErrorPtr
      (QuotaError.mk ErrQuotaExceeded
         (first_nonblank [errResp.Message r; errResp.Error r]) st
         (detail_string r "plan") (detail_int r "current")
         (detail_int r "limit") (detail_string r "type")).
Proof.
  intros Hr Hc. unfold parseHTTPError. rewrite Hr.
  rewrite is_quota_code_spec, bool_decide_eq_true_2 by assumption.
  fold (with_body_message r (Error.with_StatusCode st Error.zero)).
  rewrite with_body_message_spec by reflexivity.
  unfold detail_string, detail_int, detail.
  destruct (errResp.Details r) as [details|]; [|reflexivity].
  unfold quota_details. cbn.
  destruct (details !! "plan") as [[]|];
    destruct (details !! "current") as [[]|];
    destruct (details !! "limit") as [[]|];
    destruct (details !! "type") as [[]|]; reflexivity.
Qed.

Lemma quota_match_spec (body : list Byte.byte) :
  quota_match body = true <->
  exists r, json_Unmarshal_errResp body = Some r /\
            (errResp.Code r = "QUOTA_EXCEEDED" \/
             errResp.Code r = "ASSET_QUOTA_EXCEEDED" \/
             errResp.Code r = "LAYOUT_QUOTA_EXCEEDED").
Proof.
  unfold quota_match, quota_codes.
  destruct (json_Unmarshal_errResp body) as [r|].
  - rewrite bool_decide_eq_true, !elem_of_cons, elem_of_nil. split.
    + intros Hc. exists r. split; [reflexivity | tauto].
    + intros (r' & [= <-] & Hc). tauto.
  - split; [discriminate | intros (r & [=] & _)].
Qed.

Lemma is_QuotaError_parse (st : Z) (body : list Byte.byte) :
  is_QuotaError (parseHTTPError st body) = quota_match body.
Proof.
  destruct (quota_match body) eqn:Hq.
  - apply quota_match_spec in Hq as (r & Hr & Hc).
    rewrite (parse_quota st body r Hr); [reflexivity|].
    unfold quota_codes. rewrite !elem_of_cons. tauto.
  - rewrite parse_generic by assumption. reflexivity.
Qed.

Lemma int_of_float64_trunc (f : spec_float) (z : Z) :
  trunc_float64 f = Some z -> in_int z = true -> int_of_float64 f = z.
Proof. unfold int_of_float64. intros -> ->. reflexivity. Qed.

End Classifier.

Section ClassifierClaims.
Context `{Env}.

(** C5.  When the body parses and its [code] is one of QUOTA_EXCEEDED,
    ASSET_QUOTA_EXCEEDED, LAYOUT_QUOTA_EXCEEDED, the classifier returns the
    quota variant with kind quota-exceeded, the message of the body and
    the status, and Plan, Current, Limit, QuotaType read from [details]:
    a string entry as it is, a numeric entry truncated toward zero (for a
    number that fits an int), and the zero value for an entry that is
    absent or of another dynamic type, each field on its own. *)
Theorem quota_error_fields (st : Z) (body : list Byte.byte) (r : errResp.t) :
  json_Unmarshal_errResp body = Some r ->
  errResp.Code r ∈ quota_codes ->
  exists qe,
    parseHTTPError st body = QuotaErrorPtr qe /\
    QuotaError.Code qe = ErrQuotaExceeded /\
    QuotaError.Message qe
      = first_nonblank [errResp.Message r; errResp.Error r] /\
    QuotaError.StatusCode qe = st /\
    QuotaError.Plan qe = detail_string r "plan" /\
    QuotaError.Current qe = detail_int r "current" /\
    QuotaError.Limit qe = detail_int r "limit" /\
    QuotaError.QuotaType qe = detail_string r "type" /\
    (forall key s, detail r key = Some (VString s) ->
                   detail_string r key = s) /\
    (forall key, (forall s, detail r key <> Some (VString s)) ->
                 detail_string r key = "") /\
    (forall key f z, detail r key = Some (VFloat64 f) ->
                     trunc_float64 f = Some z -> in_int z = true ->
                     detail_int r key = z) /\
    (forall key, (forall f, detail r key <> Some (VFloat64 f)) ->
                 detail_int r key = 0).
Proof.
  intros Hr Hc. eexists. split; [apply (parse_quota st body r Hr Hc)|].
  cbn. repeat split.
  - intros key s Hk. unfold detail_string. rewrite Hk. reflexivity.
  - intros key Hk. unfold detail_string.
    destruct (detail r key) as [[]|]; try reflexivity.
    exfalso. eapply Hk. reflexivity.
  - intros key f z Hk Ht Hz. unfold detail_int. rewrite Hk.
    apply int_of_float64_trunc; assumption.
  - intros key Hk. unfold detail_int.
    destruct (detail r key) as [[]|]; try reflexivity.
    exfalso. eapply Hk. reflexivity.
Qed.

(** C6.  When the failure is not resolved as a quota-code match, the
    classifier returns the generic error whose kind follows the status
    (401 unauthorized, 403 forbidden, 404 not-found, 400 bad-request,
    402 quota-exceeded, anything else internal-server), which keeps the
    status, and whose message is the kind's default message exactly when
    no message was extracted from the body. *)
Theorem status_kind_mapping (st : Z) (body : list Byte.byte) :
  quota_match body = false ->
  exists e,
    parseHTTPError st body = ErrorPtr e /\
    Error.Code e = kind_of_status st /\
    Error.StatusCode e = st /\
    Error.Message e
      = (if is_empty (extracted_message body) then default_message st
         else extracted_message body) /\
    (st ∉ [401; 403; 404; 400; 402] ->
     Error.Code e = ErrInternalServer /\
     default_message st = "server error: " +:+ fmt_d st).
Proof.
  intros Hq. eexists. split; [apply (parse_generic st body Hq)|].
  cbn. split; [reflexivity|]. split; [reflexivity|].
  split; [reflexivity|]. intros Hst.
  rewrite !elem_of_cons, elem_of_nil in Hst.
  unfold kind_of_status, default_message, kind_table. cbn [table_find].
  destruct (Z.eqb_spec 401 st); [exfalso; subst; tauto|].
  destruct (Z.eqb_spec 403 st); [exfalso; subst; tauto|].
  destruct (Z.eqb_spec 404 st); [exfalso; subst; tauto|].
  destruct (Z.eqb_spec 400 st); [exfalso; subst; tauto|].
  destruct (Z.eqb_spec 402 st); [exfalso; subst; tauto|].
  split; reflexivity.
Qed.

(** C7.  The classifier returns one error value, of one of the two
    variants; it is the quota variant if and only if the body parses and
    its [code] is one of the three quota codes.  A 402 without such a
    code yields the generic error of kind quota-exceeded. *)
Theorem quota_variant_iff_code (st : Z) (body : list Byte.byte) :
  (is_QuotaError (parseHTTPError st body) = true <->
   exists r, json_Unmarshal_errResp body = Some r /\
             (errResp.Code r = "QUOTA_EXCEEDED" \/
              errResp.Code r = "ASSET_QUOTA_EXCEEDED" \/
              errResp.Code r = "LAYOUT_QUOTA_EXCEEDED")) /\
  ((exists e, parseHTTPError st body = ErrorPtr e /\
              quota_match body = false) \/
   (exists q, parseHTTPError st body = QuotaErrorPtr q /\
              quota_match body = true)) /\
  (quota_match body = false ->
   exists e, parseHTTPError 402 body = ErrorPtr e /\
             Error.Code e = ErrQuotaExceeded /\
             Error.StatusCode e = 402).
Proof.
  split; [|split].
  - rewrite is_QuotaError_parse. apply quota_match_spec.
  - pose proof (is_QuotaError_parse st body) as Hq.
    destruct (parseHTTPError st body) as [e|q]; cbn in Hq.
    + left. exists e. auto.
    + right. exists q. auto.
  - intros Hq. rewrite (parse_generic 402 body Hq). eexists.
    split; [reflexivity|]. split; reflexivity.
Qed.

(** C8.  The classifier is total.  When the body parses, the message is
    [message] if it is not blank, else [error] if that is not blank, else
    blank; when it does not parse, a non-empty body becomes the message as
    raw text, and an empty body leaves the message to the default of the
    status.  (A blank message is replaced by the default of the status on
    the generic variant only.) *)
Theorem message_extraction (st : Z) (body : list Byte.byte) :
  match json_Unmarshal_errResp body with
  | Some r =>
      let m := first_nonblank [errResp.Message r; errResp.Error r] in
      (errResp.Message r <> "" -> m = errResp.Message r) /\
      (errResp.Message r = "" -> errResp.Error r <> "" ->
       m = errResp.Error r) /\
      (errResp.Message r = "" -> errResp.Error r = "" -> m = "") /\
      message_of (parseHTTPError st body)
        = (if quota_match body then m
           else if is_empty m then default_message st else m)
  | None =>
      (body <> [] ->
       message_of (parseHTTPError st body) = string_of_list_byte body /\
       string_of_list_byte body <> "") /\
      (body = [] ->
       message_of (parseHTTPError st body) = default_message st)
  end.
Proof.
  destruct (json_Unmarshal_errResp body) as [r|] eqn:Hr.
  - cbn zeta. unfold first_nonblank at 1 2 3. unfold filter; cbn.
    repeat split.
    + intros Hm. destruct (is_empty (errResp.Message r)) eqn:E;
        [apply is_empty_spec in E; contradiction | reflexivity].
    + intros Hm He. rewrite Hm. cbn.
      destruct (is_empty (errResp.Error r)) eqn:E;
        [apply is_empty_spec in E; contradiction | reflexivity].
    + intros -> ->. reflexivity.
    + destruct (quota_match body) eqn:Hq.
      * unfold quota_match in Hq. rewrite Hr in Hq.
        apply bool_decide_eq_true in Hq.
        rewrite (parse_quota st body r Hr Hq). reflexivity.
      * rewrite (parse_generic st body Hq). cbn.
        unfold extracted_message. rewrite Hr. reflexivity.
  - assert (Hq : quota_match body = false)
      by (unfold quota_match; rewrite Hr; reflexivity).
    rewrite (parse_generic st body Hq). cbn.
    unfold extracted_message. rewrite Hr. split.
    + intros Hb. rewrite (string_of_nonempty_bytes body Hb).
      split; [reflexivity|].
      intros E. apply is_empty_spec in E.
      rewrite (string_of_nonempty_bytes body Hb) in E. discriminate.
    + intros ->. reflexivity.
Qed.

End ClassifierClaims.

(** ** Properties of the transport *)

Section Transport.
Context `{Env}.
Variables (c : httpClient) (ctx : context) (method path : string).
Variables (body : option any) (result : option loc).

Abbreviation attempt_at := (executeRequest c ctx method path body result).
Abbreviation loop n a last :=
  (retry_loop n a last c ctx method path body result).
Abbreviation wait_at := (after_wait c ctx).

Lemma only_sends_schedule evs : only_sends evs -> schedule evs = [].
Proof.
  induction 1 as [|ev evs Hev _ IH]; [reflexivity|].
  destruct ev; try discriminate. cbn. exact IH.
Qed.

Lemma only_sends_results evs : only_sends evs -> attempt_results evs = [].
Proof.
  induction 1 as [|ev evs Hev _ IH]; [reflexivity|].
  destruct ev; try discriminate. cbn. exact IH.
Qed.

Lemma only_sends_no_cancel evs :
  only_sends evs -> Forall (fun ev => is_cancel ev = false) evs.
Proof.
  intros Hs. eapply Forall_impl; [exact Hs|].
  intros [] Hev; (reflexivity || discriminate).
Qed.

Lemma schedule_app evs1 evs2 :
  schedule (evs1 ++ evs2) = (schedule evs1 ++ schedule evs2)%list.
Proof. apply omap_app. Qed.

Lemma attempt_results_app evs1 evs2 :
  attempt_results (evs1 ++ evs2)
  = (attempt_results evs1 ++ attempt_results evs2)%list.
Proof. apply omap_app. Qed.

Lemma sends_app evs1 evs2 : sends (evs1 ++ evs2) = (sends evs1 + sends evs2)%nat.
Proof. unfold sends. rewrite filter_app, length_app. reflexivity. Qed.

Lemma last_cons {A} (x d : A) (l : list A) :
  List.last (x :: l) d = List.last l x.
Proof.
  revert x d. induction l as [|y l IH]; intros x d; [reflexivity|].
  transitivity (List.last (y :: l) d); [reflexivity|].
  rewrite (IH y d), (IH y x). reflexivity.
Qed.

(** An attempt only adds requests to the trace: at most one. *)
Lemma executeRequest_frame (s : state) :
  exists evs,
    st_trace (snd (attempt_at s)) = (st_trace s ++ evs)%list /\
    only_sends evs /\ (length evs <= 1)%nat.
Proof.
  unfold executeRequest, ret, bind, send, decode, new_error.
  repeat case_match; simplify_eq/=;
    first [ exists []; rewrite app_nil_r;
            split; [reflexivity | split; [constructor | cbn; lia]]
          | eexists [_]; split; [reflexivity |];
            split; [repeat constructor | cbn; lia] ].
Qed.

(** One turn of the loop, case by case. *)
Lemma loop_zero a last s : loop 0 a last s = (last, s).
Proof. reflexivity. Qed.

Lemma loop_cancelled n a last s cause s1 :
  wait_at a s = (Some cause, s1) ->
  loop (S n) a last s = (Some (cancelled_error cause), s1).
Proof.
  unfold after_wait. cbn [retry_loop]. unfold bind, ret.
  destruct (0 <? a); [|discriminate]. intros ->. reflexivity.
Qed.

Lemma loop_attempt n a last s s1 r s2 :
  wait_at a s = (None, s1) ->
  attempt_at s1 = (r, s2) ->
  loop (S n) a last s =
    match r with
    | None => (None, logged a r s2)
    | Some e => if is_client_error e then (r, logged a r s2)
                else loop n (a + 1) r (logged a r s2)
    end.
Proof.
  unfold after_wait. cbn [retry_loop]. unfold bind, ret, emit, logged.
  destruct (0 <? a).
  - intros -> ->. destruct r as [e|]; [|reflexivity].
    destruct (is_client_error e); reflexivity.
  - intros [= <-] ->. destruct r as [e|]; [|reflexivity].
    destruct (is_client_error e); reflexivity.
Qed.

(** What the wait leaves in the trace. *)
Lemma after_wait_trace a s r s1 :
  wait_at a s = (r, s1) ->
  st_heap s1 = st_heap s /\
  exists evs, st_trace s1 = (st_trace s ++ evs)%list /\
    match r with
    | Some cause => 0 < a /\ evs = [EvCancelled (wrap64 (retryWait c * a)) cause]
    | None => evs = if 0 <? a then [EvWaited (wrap64 (retryWait c * a))]
                    else []
    end.
Proof.
  unfold after_wait, backoff. destruct (0 <? a) eqn:Ha.
  - destruct (select_Done_or_After _ _ _) as [r' w]. intros [= <- <-].
    split; [reflexivity|]. cbn. eexists. split; [reflexivity|].
    destruct r'; [split; [lia | reflexivity] | reflexivity].
  - intros [= <- <-]. split; [reflexivity|]. exists [].
    rewrite app_nil_r. split; reflexivity.
Qed.

Lemma after_wait_never a s :
  (forall d w, fst (select_Done_or_After ctx d w) = None) ->
  fst (wait_at a s) = None.
Proof.
  intros Hnever. unfold after_wait, backoff.
  destruct (0 <? a); [|reflexivity].
  specialize (Hnever (wrap64 (retryWait c * a)) (st_world s)).
  destruct (select_Done_or_After _ _ _) as [r w]. exact Hnever.
Qed.

(** When no wait is cancelled and every attempt fails with an error that
    is not a 4xx [*Error], the loop runs all its turns on the linear
    schedule and returns what the last attempt returned. *)
Lemma retry_loop_exhausts (Q : sdkerror -> Prop) :
  (forall d w, fst (select_Done_or_After ctx d w) = None) ->
  (forall s, exists e, fst (attempt_at s) = Some e /\
                       is_client_error e = false /\ Q e) ->
  forall n a last s,
  exists evs,
    st_trace (snd (loop n a last s)) = (st_trace s ++ evs)%list /\
    schedule evs = linear_schedule (retryWait c) a n /\
    length (attempt_results evs) = n /\
    Forall (fun r => exists e, r = Some e /\ is_client_error e = false /\ Q e)
      (attempt_results evs) /\
    fst (loop n a last s) = List.last (attempt_results evs) last.
Proof.
  intros Hnever Hexec. induction n as [|n IH]; intros a last s.
  - exists []. rewrite loop_zero, app_nil_r. cbn. auto.
  - destruct (wait_at a s) as [r0 s1] eqn:Hw.
    pose proof (after_wait_never a s Hnever) as Hr0.
    rewrite Hw in Hr0. cbn in Hr0. subst r0.
    destruct (attempt_at s1) as [r s2] eqn:Ha.
    destruct (Hexec s1) as (e & He & Hnc & Hq).
    rewrite Ha in He. cbn in He. subst r.
    rewrite (loop_attempt n a last s s1 _ s2 Hw Ha), Hnc.
    destruct (IH (a + 1) (Some e) (logged a (Some e) s2)) as
      (evs' & Htr & Hsch & Hlen & Hall & Hres).
    apply after_wait_trace in Hw as (_ & evw & Hw & Hevw).
    destruct (executeRequest_frame s1) as (evs1 & H1 & Hs1 & _).
    rewrite Ha in H1. cbn in H1.
    exists (evw ++ evs1 ++ [EvAttempt a (Some e)] ++ evs')%list.
    split; [|split; [|split; [|split]]].
    + rewrite Htr. cbn. rewrite H1, Hw, <- !app_assoc. reflexivity.
    + rewrite !schedule_app, (only_sends_schedule evs1 Hs1), Hsch, Hevw.
      cbn [linear_schedule]. destruct (0 <? a); reflexivity.
    + rewrite !attempt_results_app, (only_sends_results evs1 Hs1).
      rewrite !length_app, Hlen.
      subst evw. destruct (0 <? a); reflexivity.
    + rewrite !attempt_results_app, (only_sends_results evs1 Hs1).
      subst evw. destruct (0 <? a); cbn; (constructor; [eauto | exact Hall]).
    + rewrite Hres, !attempt_results_app, (only_sends_results evs1 Hs1).
      subst evw. destruct (0 <? a);
        exact (eq_sym (last_cons (Some e) last (attempt_results evs'))).
Qed.

(** A cancellation, if there is one, is the last thing a call does, and
    the call then returns the timeout error that wraps its cause. *)
Lemma retry_loop_cancel n :
  forall a last s,
  exists evs,
    st_trace (snd (loop n a last s)) = (st_trace s ++ evs)%list /\
    (Forall (fun ev => is_cancel ev = false) evs \/
     exists pre d err,
       evs = (pre ++ [EvCancelled d err])%list /\
       Forall (fun ev => is_cancel ev = false) pre /\
       fst (loop n a last s) = Some (cancelled_error err)).
Proof.
  induction n as [|n IH]; intros a last s.
  - exists []. rewrite loop_zero, app_nil_r. split; [reflexivity|].
    left. constructor.
  - destruct (wait_at a s) as [r0 s1] eqn:Hw.
    pose proof (after_wait_trace _ _ _ _ Hw) as (_ & evw & Htw & Hevw).
    destruct r0 as [cause|].
    + rewrite (loop_cancelled n a last s cause s1 Hw). cbn.
      destruct Hevw as [_ ->]. eexists. split; [exact Htw|].
      right. exists [], (wrap64 (retryWait c * a)), cause.
      repeat split. constructor.
    + destruct (attempt_at s1) as [r s2] eqn:Ha.
      rewrite (loop_attempt n a last s s1 r s2 Hw Ha).
      destruct (executeRequest_frame s1) as (evs1 & H1 & Hs1 & _).
      rewrite Ha in H1. cbn in H1.
      assert (Hpre : Forall (fun ev => is_cancel ev = false)
                       (evw ++ evs1 ++ [EvAttempt a r])%list).
      { rewrite !Forall_app. split; [|split].
        - subst evw. destruct (0 <? a); repeat constructor.
        - apply only_sends_no_cancel, Hs1.
        - repeat constructor. }
      assert (Hlog : st_trace (logged a r s2)
                     = (st_trace s ++ evw ++ evs1 ++ [EvAttempt a r])%list).
      { cbn. rewrite H1, Htw, <- !app_assoc. reflexivity. }
      assert (Hstop : exists evs,
                 st_trace (logged a r s2) = (st_trace s ++ evs)%list /\
                 Forall (fun ev => is_cancel ev = false) evs) by eauto.
      destruct r as [e|]; [destruct (is_client_error e)|].
      * destruct Hstop as (evs & ? & ?). exists evs. cbn [snd]. auto.
      * destruct (IH (a + 1) (Some e) (logged a (Some e) s2))
          as (evs' & Htr & Hcases).
        exists ((evw ++ evs1 ++ [EvAttempt a (Some e)]) ++ evs')%list.
        split; [rewrite Htr, Hlog, <- !app_assoc; reflexivity|].
        destruct Hcases as [Hno | (pre & d & err & -> & Hno & Hres)].
        -- left. apply Forall_app. auto.
        -- right.
           exists ((evw ++ evs1 ++ [EvAttempt a (Some e)]) ++ pre)%list, d, err.
           split; [rewrite <- !app_assoc; reflexivity|].
           split; [apply Forall_app; auto | exact Hres].
      * destruct Hstop as (evs & ? & ?). exists evs. cbn [snd]. auto.
Qed.

(** A property of the state that attempts keep, and that neither the
    clock nor the ghost events touch, is kept by the loop. *)
Lemma retry_loop_preserves (P : state -> Prop) :
  (forall s, P s -> P (snd (attempt_at s))) ->
  (forall s w ev, is_send ev = false -> P s ->
                  P (mkState _ w (st_heap s) (st_trace s ++ [ev])%list)) ->
  forall n a last s, P s -> P (snd (loop n a last s)).
Proof.
  intros Hexec Hstable. induction n as [|n IH]; intros a last s Hs.
  - exact Hs.
  - destruct (wait_at a s) as [r0 s1] eqn:Hw.
    assert (Hs1 : P s1).
    { unfold after_wait, backoff in Hw. destruct (0 <? a).
      - destruct (select_Done_or_After _ _ _) as [r' w].
        injection Hw as <- <-. apply Hstable; [|exact Hs].
        destruct r'; reflexivity.
      - injection Hw as <- <-. exact Hs. }
    destruct r0 as [cause|].
    + rewrite (loop_cancelled n a last s cause s1 Hw). exact Hs1.
    + destruct (attempt_at s1) as [r s2] eqn:Ha.
      rewrite (loop_attempt n a last s s1 r s2 Hw Ha).
      assert (Hs2 : P (logged a r s2)).
      { apply Hstable; [reflexivity|].
        specialize (Hexec s1 Hs1). rewrite Ha in Hexec. exact Hexec. }
      destruct r as [e|]; [destruct (is_client_error e)|];
        [exact Hs2 | apply IH, Hs2 | exact Hs2].
Qed.

Lemma parse_status (st : Z) (b : list Byte.byte) :
  status_of (parseHTTPError st b) = st.
Proof.
  destruct (quota_match b) eqn:Hq.
  - unfold quota_match in Hq.
    destruct (json_Unmarshal_errResp b) as [r|] eqn:Hr; [|discriminate].
    apply bool_decide_eq_true in Hq.
    rewrite (parse_quota st b r Hr Hq). reflexivity.
  - rewrite (parse_generic st b Hq). reflexivity.
Qed.

Lemma is_client_error_status (e : sdkerror) :
  is_client_error e = true -> 400 <= status_of e < 500.
Proof. destruct e as [e|q]; cbn; [lia | discriminate]. Qed.

Lemma server_error_not_client (st : Z) (b : list Byte.byte) :
  500 <= st -> is_client_error (parseHTTPError st b) = false.
Proof.
  intros Hst. destruct (is_client_error _) eqn:E; [|reflexivity].
  apply is_client_error_status in E. rewrite parse_status in E. lia.
Qed.

(** Against a server that only fails retryably, every attempt fails with
    an error the loop does not stop on. *)
Lemma retryable_attempts :
  (forall req w, retryable (fst (client_Do (client c) ctx req w)) = true) ->
  forall s, exists e, fst (attempt_at s) = Some e /\
                      is_client_error e = false /\ True.
Proof.
  intros Hsrv s. unfold executeRequest, bind, ret, send, new_error.
  destruct (url_JoinPath _ _) as [err|reqURL]; [cbn; eauto|].
  destruct (match body with Some _ => _ | None => _ end)
    as [err|bodyReader]; [cbn; eauto|].
  destruct (http_NewRequestWithContext _ _ _ _) as [err|]; [cbn; eauto|].
  match goal with
  | |- context [client_Do ?cl ?cx ?req ?w] =>
      specialize (Hsrv req w); destruct (client_Do cl cx req w) as [rt w']
  end.
  cbn in Hsrv. destruct rt as [err|st err|st b]; [cbn; eauto..|].
  cbn in Hsrv. apply Z.leb_le in Hsrv.
  destruct (Z.leb_spec 400 st) as [_|Hlt]; [|lia].
  cbn. eexists. split; [reflexivity|].
  split; [apply server_error_not_client; exact Hsrv | exact I].
Qed.

(** An attempt whose body does not serialize touches nothing and yields a
    validation error without a status. *)
Lemma unserializable_attempt (b : any) (cause : liberror) (s : state) :
  body = Some b -> json_Marshal b = inl cause ->
  exists e,
    attempt_at s = (Some (ErrorPtr e), s) /\
    Error.Code e = ErrValidation /\ Error.StatusCode e = 0.
Proof.
  intros -> Hm. unfold executeRequest, ret, new_error.
  destruct (url_JoinPath _ _) as [err|reqURL]; [cbn; eauto|].
  rewrite Hm. cbn. eauto.
Qed.

(** A successful response without a body: nothing is decoded. *)
Lemma empty_success_attempt (req : Request) (st : Z) (w' : world) (s : state) :
  prepared c ctx method path body req ->
  client_Do (client c) ctx req (st_world s) = (Response st [], w') ->
  st < 400 ->
  attempt_at s
  = (None, mkState _ w' (st_heap s) (st_trace s ++ [EvDo req])%list).
Proof.
  intros (reqURL & bodyReader & Hurl & Hbody & Hnew & ->) Hdo Hst.
  unfold executeRequest, bind, ret, send. rewrite Hurl.
  assert (Hm : match body with
               | Some b0 => match json_Marshal b0 with
                            | inl err => inl err
                            | inr jsonBody => inr (Some jsonBody)
                            end
               | None => inr None
               end = inr bodyReader).
  { destruct body as [b0|].
    - destruct Hbody as (jsonBody & Hb & ->). rewrite Hb. reflexivity.
    - subst bodyReader. reflexivity. }
  rewrite Hm, Hnew, Hdo.
  destruct (Z.leb_spec 400 st) as [Hge|_]; [lia|].
  destruct result; reflexivity.
Qed.

Lemma Forall_last {A} (P : A -> Prop) (l : list A) (d : A) :
  Forall P l -> l <> [] -> P (List.last l d).
Proof.
  induction 1 as [|x l Hx Hl IH]; [congruence|]. intros _.
  rewrite last_cons. destruct l as [|y l]; [exact Hx|].
  rewrite (last_cons y x l), <- (last_cons y d l). apply IH. discriminate.
Qed.

(** A 4xx [*Error] ends the call on the attempt that produced it. *)
Lemma client_error_returned_at_once n a last s s1 e s2 :
  wait_at a s = (None, s1) ->
  attempt_at s1 = (Some e, s2) ->
  is_client_error e = true ->
  loop (S n) a last s = (Some e, logged a (Some e) s2).
Proof.
  intros Hw Ha He. rewrite (loop_attempt n a last s s1 _ s2 Hw Ha), He.
  reflexivity.
Qed.

(** A [*QuotaError] never ends the loop, whatever its status. *)
Lemma quota_error_retried n a last s s1 q s2 :
  wait_at a s = (None, s1) ->
  attempt_at s1 = (Some (QuotaErrorPtr q), s2) ->
  loop (S n) a last s
  = loop n (a + 1) (Some (QuotaErrorPtr q))
      (logged a (Some (QuotaErrorPtr q)) s2).
Proof.
  intros Hw Ha. rewrite (loop_attempt n a last s s1 _ s2 Hw Ha). reflexivity.
Qed.

(** C3.  Against a server that always fails with a retryable error (a
    network failure or a status of 500 and above), and with no cancellation
    during the waits, a call makes exactly maxRetries+1 attempts, numbered
    from 0, waits retryWait*a before the attempt a > 0, and returns the
    error of the last attempt. *)
Theorem retry_exhaustion (s : state) :
  0 <= maxRetries c < max_int ->
  (forall d w, fst (select_Done_or_After ctx d w) = None) ->
  (forall req w, retryable (fst (client_Do (client c) ctx req w)) = true) ->
  exists evs e,
    st_trace (snd (doRequest c ctx method path body result s))
      = (st_trace s ++ evs)%list /\
    schedule evs
      = linear_schedule (retryWait c) 0 (Z.to_nat (maxRetries c + 1)) /\
    length (attempt_results evs) = Z.to_nat (maxRetries c + 1) /\
    fst (doRequest c ctx method path body result s) = Some e /\
    List.last (attempt_results evs) None = Some e /\
    is_client_error e = false.
Proof.
  intros Hmax Hnever Hsrv. unfold doRequest.
  destruct (retry_loop_exhausts (fun _ => True) Hnever
              (retryable_attempts Hsrv)
              (Z.to_nat (maxRetries c + 1)) 0 None s)
    as (evs & Htr & Hsch & Hlen & Hall & Hres).
  assert (Hne : attempt_results evs <> []).
  { intros E. rewrite E in Hlen. cbn in Hlen. lia. }
  destruct (Forall_last _ _ None Hall Hne) as (e & He & Hnc & _).
  exists evs, e. rewrite Hres.
  split; [exact Htr|]. split; [exact Hsch|]. split; [exact Hlen|].
  split; [exact He|]. split; [exact He | exact Hnc].
Qed.

(** C4.  If the context is cancelled during a backoff wait, that wait is
    cut short and is the last thing the call does (no attempt, request or
    wait follows), and the call returns the timeout error whose cause is
    the error of the context. *)
Theorem cancel_during_backoff (s : state) (evs : list event)
    (d : Z) (err : liberror) :
  st_trace (snd (doRequest c ctx method path body result s))
    = (st_trace s ++ evs)%list ->
  In (EvCancelled d err) evs ->
  fst (doRequest c ctx method path body result s)
    = Some (ErrorPtr (Error.mk ErrTimeout "request cancelled" 0 None
                        (Some err))) /\
  exists pre,
    evs = (pre ++ [EvCancelled d err])%list /\
    Forall (fun ev => is_cancel ev = false) pre.
Proof.
  intros Htr Hin. unfold doRequest in *.
  destruct (retry_loop_cancel (Z.to_nat (maxRetries c + 1)) 0 None s)
    as (evs' & Htr' & Hcases).
  rewrite Htr in Htr'. apply app_inv_head in Htr'. subst evs'.
  destruct Hcases as [Hno | (pre & d' & err' & -> & Hno & Hres)].
  - exfalso. rewrite Forall_forall in Hno.
    apply list_elem_of_In, Hno in Hin. discriminate.
  - apply in_app_or in Hin as [Hin | [Heq | []]].
    + exfalso. rewrite Forall_forall in Hno.
      apply list_elem_of_In, Hno in Hin. discriminate.
    + injection Heq as -> ->. split; [exact Hres|]. exists pre. auto.
Qed.

(** C9.  When a response with a status below 400 and an empty body
    arrives, the attempt returns nil and leaves every destination as it
    was, a non-nil [result] included; if this is the first attempt of a
    call, the call returns nil with the destinations untouched. *)
Theorem empty_body_leaves_destination (req : Request) (st : Z) (w' : world)
    (s : state) :
  prepared c ctx method path body req ->
  client_Do (client c) ctx req (st_world s) = (Response st [], w') ->
  st < 400 ->
  (fst (attempt_at s) = None /\
   st_heap (snd (attempt_at s)) = st_heap s) /\
  (0 <= maxRetries c ->
   fst (doRequest c ctx method path body result s) = None /\
   st_heap (snd (doRequest c ctx method path body result s)) = st_heap s).
Proof.
  intros Hprep Hdo Hst.
  pose proof (empty_success_attempt req st w' s Hprep Hdo Hst) as Ha.
  split; [rewrite Ha; auto|].
  intros Hmax. unfold doRequest.
  destruct (Z.to_nat (maxRetries c + 1)) as [|n] eqn:Hn; [lia|].
  rewrite (loop_attempt n 0 None s s _ _ eq_refl Ha). auto.
Qed.

(** C2, as the code has it.  A body that does not serialize makes every
    attempt fail with a validation error, without a request on the network
    and without touching a destination; that error carries no status, so
    the loop retries it: with no cancellation during the waits the call
    makes maxRetries+1 attempts on the linear schedule and returns the
    validation error. *)
Theorem marshal_failure_retried (b : any) (cause : liberror) (s : state) :
  body = Some b ->
  json_Marshal b = inl cause ->
  0 <= maxRetries c < max_int ->
  (forall d w, fst (select_Done_or_After ctx d w) = None) ->
  exists evs e,
    st_trace (snd (doRequest c ctx method path body result s))
      = (st_trace s ++ evs)%list /\
    schedule evs
      = linear_schedule (retryWait c) 0 (Z.to_nat (maxRetries c + 1)) /\
    sends evs = 0%nat /\
    Forall (fun r => exists e', r = Some (ErrorPtr e') /\
                                Error.Code e' = ErrValidation /\
                                Error.StatusCode e' = 0)
      (attempt_results evs) /\
    st_heap (snd (doRequest c ctx method path body result s)) = st_heap s /\
    fst (doRequest c ctx method path body result s) = Some (ErrorPtr e) /\
    Error.Code e = ErrValidation /\
    Error.StatusCode e = 0.
Proof.
  intros Hb Hm Hmax Hnever. unfold doRequest.
  set (Q := fun err => exists e, err = ErrorPtr e /\
                                 Error.Code e = ErrValidation /\
                                 Error.StatusCode e = 0).
  assert (Hexec : forall s0, exists e, fst (attempt_at s0) = Some e /\
                                       is_client_error e = false /\ Q e).
  { intros s0.
    destruct (unserializable_attempt b cause s0 Hb Hm) as (e & Ha & Hc & Hs).
    exists (ErrorPtr e). rewrite Ha. split; [reflexivity|].
    split; [cbn; rewrite Hs; reflexivity | exists e; auto]. }
  destruct (retry_loop_exhausts Q Hnever Hexec
              (Z.to_nat (maxRetries c + 1)) 0 None s)
    as (evs & Htr & Hsch & Hlen & Hall & Hres).
  assert (Hne : attempt_results evs <> []).
  { intros E. rewrite E in Hlen. cbn in Hlen. lia. }
  destruct (Forall_last _ _ None Hall Hne) as (e' & He' & _ & e & -> & Hc & Hs).
  pose proof (retry_loop_preserves
    (fun s' => st_heap s' = st_heap s /\
               sends (st_trace s') = sends (st_trace s))) as Hkeep.
  destruct (Hkeep) with (n := Z.to_nat (maxRetries c + 1)) (a := 0)
    (last := @None sdkerror) (s := s) as [Hheap Hsends].
  - intros s0 Hs0.
    destruct (unserializable_attempt b cause s0 Hb Hm) as (e0 & Ha & _).
    rewrite Ha. exact Hs0.
  - intros s0 w ev Hev [Hh Hn]. split; [exact Hh|].
    change (sends (st_trace s0 ++ [ev]) = sends (st_trace s)).
    rewrite sends_app, Hn. unfold sends at 2.
    rewrite filter_cons_False, filter_nil by (rewrite Hev; exact id).
    cbn. lia.
  - auto.
  - exists evs, e. rewrite Hres, He'. rewrite Htr, sends_app in Hsends.
    split; [exact Htr|]. split; [exact Hsch|]. split; [lia|].
    split; [|auto].
    eapply Forall_impl; [exact Hall|].
    intros r (e0 & -> & _ & e1 & -> & Hc1 & Hs1). eauto.
Qed.

End Transport.

(** ** Properties of the client constructor *)

Section Construction.
Context `{Env}.

Lemma fold_options_app (opts1 opts2 : list Option) (cfg : Config) :
  fold_left (fun cfg opt => opt cfg) (opts1 ++ opts2)%list cfg
  = fold_left (fun cfg opt => opt cfg) opts2
      (fold_left (fun cfg opt => opt cfg) opts1 cfg).
Proof. apply fold_left_app. Qed.

(** C10.  A transport made by newHTTPClient has maxRetries 3 and retryWait
    one second.  Whatever options New is given, each transport of the
    client it returns has these two values; adding WithRetry to the options
    changes the configuration the client reports and none of its
    transports. *)
Theorem retry_settings_fixed (cl : http_Client) (base : string)
    (getenv : string -> string) (opts : list Option) (m w : Z) :
  (maxRetries (newHTTPClient cl base) = 3 /\
   retryWait (newHTTPClient cl base) = 1000000000) /\
  exists cli cli',
    New getenv opts = inr cli /\
    New getenv (opts ++ [WithRetry m w])%list = inr cli' /\
    Forall (fun t => maxRetries t = 3 /\ retryWait t = Second)
      (transports cli) /\
    transports cli' = transports cli /\
    MaxRetries (GetConfig cli') = m /\
    RetryWait (GetConfig cli') = w.
Proof.
  split; [split; reflexivity|].
  unfold New. rewrite fold_options_app. cbn [fold_left validate].
  eexists. eexists. split; [reflexivity|]. split; [reflexivity|].
  split; [|split; [|split]]; try reflexivity.
  unfold transports. cbn. repeat constructor.
Qed.

End Construction.

(** ** The properties at work on scripted runs *)

Section Runs.
Import Scripted.

Example trunc_positive :
  trunc_float64 (S754_finite false 6417629469002957 (-50)) = Some 5.
Proof. reflexivity. Qed.

Example trunc_negative :
  trunc_float64 (S754_finite true 6417629469002957 (-50)) = Some (-5).
Proof. reflexivity. Qed.

Example trunc_large :
  trunc_float64 (S754_finite false 4503599627370496 971) = Some (2 ^ 1023)
  /\ in_int (2 ^ 1023) = false.
Proof. split; reflexivity. Qed.

(** C1.  The code departs from the rule for the quota variant: on a 402
    whose body carries the code QUOTA_EXCEEDED, the classified error has a
    status in [400,500), and yet the call goes through all four attempts
    and the three waits before it returns that error. *)
Theorem quota_402_is_retried :
  let E := quota_server in
  let run := @doRequest E (api E) tt "POST" "/layouts"
               (Some (PString "plaza")) None (start E (0, 0)%nat) in
  fst run = Some (QuotaErrorPtr
                    (QuotaError.mk ErrQuotaExceeded "plan limit reached" 402
                       "" 0 0 "")) /\
  schedule (st_trace (snd run))
    = [Attempt 0; Wait 1000000000; Attempt 1; Wait 2000000000; Attempt 2;
       Wait 3000000000; Attempt 3] /\
  sends (st_trace (snd run)) = 4%nat.
Proof. vm_compute. repeat split; reflexivity. Qed.

(** Against C2 as it is worded: the body does not serialize, and the call
    makes four attempts with three waits between them instead of one
    attempt without a wait. *)
Lemma marshal_failure_single_attempt_cex :
  let E := failing_server in
  let run := @doRequest E (api E) tt "POST" "/layouts" (Some PChan) None
               (start E (0, 0)%nat) in
  @json_Marshal E PChan = inl (LibError "json: unsupported type: chan int") /\
  option_map code_of (fst run) = Some ErrValidation /\
  schedule (st_trace (snd run))
    = [Attempt 0; Wait 1000000000; Attempt 1; Wait 2000000000; Attempt 2;
       Wait 3000000000; Attempt 3] /\
  schedule (st_trace (snd run)) <> [Attempt 0].
Proof. vm_compute. repeat split; (reflexivity || discriminate). Qed.

Lemma marshal_failure_retried_witness :
  let E := failing_server in
  @json_Marshal E PChan = inl (LibError "json: unsupported type: chan int") /\
  exists evs e,
    st_trace (snd (@doRequest E (api E) tt "POST" "/layouts" (Some PChan)
                     None (start E (0, 0)%nat))) = evs /\
    schedule evs
      = [Attempt 0; Wait 1000000000; Attempt 1; Wait 2000000000; Attempt 2;
         Wait 3000000000; Attempt 3] /\
    sends evs = 0%nat /\
    Forall (fun r => exists e', r = Some (ErrorPtr e') /\
                                Error.Code e' = ErrValidation /\
                                Error.StatusCode e' = 0)
      (attempt_results evs) /\
    st_heap (snd (@doRequest E (api E) tt "POST" "/layouts" (Some PChan)
                    None (start E (0, 0)%nat))) = ∅ /\
    fst (@doRequest E (api E) tt "POST" "/layouts" (Some PChan) None
           (start E (0, 0)%nat)) = Some (ErrorPtr e) /\
    Error.Code e = ErrValidation /\
    Error.StatusCode e = 0.
Proof.
  split; [reflexivity|].
  exact (@marshal_failure_retried failing_server (api failing_server) tt
           "POST" "/layouts" (Some PChan) None PChan
           (LibError "json: unsupported type: chan int")
           (start failing_server (0, 0)%nat)
           eq_refl eq_refl
           (conj (fun Hgt : (0 ?= 3) = Gt => ltac:(discriminate Hgt)) eq_refl)
           (fun _ _ => eq_refl)).
Defined.

Lemma quota_error_fields_witness :
  let E := quota_server in
  @json_Unmarshal_errResp E (wire body_asset_quota)
    = Some (errResp.mk "" "" "ASSET_QUOTA_EXCEEDED" (Some asset_quota_details))
  /\ exists qe,
       @parseHTTPError E 402 (wire body_asset_quota) = QuotaErrorPtr qe /\
       QuotaError.Code qe = ErrQuotaExceeded /\
       QuotaError.StatusCode qe = 402 /\
       QuotaError.Plan qe = "free" /\
       QuotaError.Current qe = 5 /\
       QuotaError.Limit qe = 5 /\
       QuotaError.QuotaType qe = "assets".
Proof.
  split; [vm_compute; reflexivity|].
  destruct (@quota_error_fields quota_server 402 (wire body_asset_quota)
              (errResp.mk "" "" "ASSET_QUOTA_EXCEEDED"
                 (Some asset_quota_details)))
    as (qe & Hp & Hcode & _ & Hst & Hplan & Hcur & Hlim & Hty & _).
  - vm_compute; reflexivity.
  - apply list_elem_of_further, list_elem_of_here.
  - exists qe. rewrite Hcode, Hst, Hplan, Hcur, Hlim, Hty.
    split; [exact Hp|]. vm_compute. repeat split; reflexivity.
Defined.

Lemma status_kind_mapping_witness :
  let E := failing_server in
  @quota_match E (wire body_empty_object) = false /\
  exists e,
    @parseHTTPError E 404 (wire body_empty_object) = ErrorPtr e /\
    Error.Code e = ErrNotFound /\
    Error.StatusCode e = 404 /\
    Error.Message e = "not found".
Proof.
  split; [vm_compute; reflexivity|].
  destruct (@status_kind_mapping failing_server 404 (wire body_empty_object))
    as (e & Hp & Hcode & Hst & Hmsg & _).
  - vm_compute; reflexivity.
  - exists e. rewrite Hcode, Hst, Hmsg. split; [exact Hp|].
    vm_compute. repeat split; reflexivity.
Defined.

Lemma retry_exhaustion_witness :
  let E := failing_server in
  let run := @doRequest E (api E) tt "GET" "/layouts" None None
               (start E (0, 0)%nat) in
  exists evs e,
    st_trace (snd run) = evs /\
    schedule evs
      = [Attempt 0; Wait 1000000000; Attempt 1; Wait 2000000000; Attempt 2;
         Wait 3000000000; Attempt 3] /\
    length (attempt_results evs) = 4%nat /\
    fst run = Some e /\
    List.last (attempt_results evs) None = Some e /\
    is_client_error e = false.
Proof.
  exact (@retry_exhaustion failing_server (api failing_server) tt "GET"
           "/layouts" None None (start failing_server (0, 0)%nat)
           (conj (fun Hgt : (0 ?= 3) = Gt => ltac:(discriminate Hgt)) eq_refl)
           (fun _ _ => eq_refl) (fun _ _ => eq_refl)).
Defined.

Lemma cancel_during_backoff_witness :
  let E := unreachable_cancelled in
  let run := @doRequest E (api E) tt "GET" "/layouts" None None
               (start E (0, 0)%nat) in
  In (EvCancelled 2000000000 ContextCanceled) (st_trace (snd run)) /\
  fst run = Some (ErrorPtr (Error.mk ErrTimeout "request cancelled" 0 None
                              (Some ContextCanceled))) /\
  exists pre,
    st_trace (snd run) = (pre ++ [EvCancelled 2000000000 ContextCanceled])%list
    /\ Forall (fun ev => is_cancel ev = false) pre.
Proof.
  cbv zeta.
  assert (Hin : In (EvCancelled 2000000000 ContextCanceled)
                  (st_trace (snd (@doRequest unreachable_cancelled
                     (api unreachable_cancelled) tt "GET" "/layouts" None None
                     (start unreachable_cancelled (0, 0)%nat))))).
  { vm_compute. do 5 right. left. reflexivity. }
  split; [exact Hin|].
  exact (@cancel_during_backoff unreachable_cancelled
           (api unreachable_cancelled) tt "GET" "/layouts" None None
           (start unreachable_cancelled (0, 0)%nat) _ 2000000000
           ContextCanceled eq_refl Hin).
Defined.

Lemma empty_body_leaves_destination_witness :
  let E := no_content_server in
  let s := start_with E (0, 0)%nat 1%positive "previous" in
  let run := @doRequest E (api E) tt "GET" "/layouts" None (Some 1%positive) s in
  fst run = None /\ st_heap (snd run) !! 1%positive = Some "previous".
Proof.
  cbv zeta.
  destruct (@empty_body_leaves_destination no_content_server
              (api no_content_server) tt "GET" "/layouts" None
              (Some 1%positive)
              (mkRequest "GET" (ProdUIURL +:+ "/layouts") None
                 (@set_headers no_content_server (api no_content_server)))
              204 (1, 0)%nat
              (start_with no_content_server (0, 0)%nat 1%positive "previous"))
    as [_ Hcall].
  - exists (ProdUIURL +:+ "/layouts"), None. repeat split; reflexivity.
  - reflexivity.
  - reflexivity.
  - destruct Hcall as [Hnone Hheap]; [vm_compute; discriminate|].
    rewrite Hnone, Hheap. split; reflexivity.
Defined.

End Runs.

(** ** The predicates of errors.go on what the classifier returns *)

Section Inspecting.
Context `{Env}.

Lemma quota_match_cases (st : Z) (body : list Byte.byte) :
  (quota_match body = true /\
   exists q, parseHTTPError st body = QuotaErrorPtr q /\
             QuotaError.Code q = ErrQuotaExceeded /\
             QuotaError.StatusCode q = st) \/
  (quota_match body = false /\
   exists e, parseHTTPError st body = ErrorPtr e /\
             Error.Code e = kind_of_status st /\
             Error.StatusCode e = st).
Proof.
  destruct (quota_match body) eqn:Hq.
  - left. split; [reflexivity|]. unfold quota_match in Hq.
    destruct (json_Unmarshal_errResp body) as [r|] eqn:Hr; [|discriminate].
    apply bool_decide_eq_true in Hq.
    rewrite (parse_quota st body r Hr Hq). eauto.
  - right. split; [reflexivity|]. rewrite (parse_generic st body Hq). eauto.
Qed.

Lemma kind_of_status_cases (st : Z) :
  (st = 401 /\ kind_of_status st = ErrUnauthorized) \/
  (st = 403 /\ kind_of_status st = ErrForbidden) \/
  (st = 404 /\ kind_of_status st = ErrNotFound) \/
  (st = 400 /\ kind_of_status st = ErrBadRequest) \/
  (st = 402 /\ kind_of_status st = ErrQuotaExceeded) \/
  ((st ∉ [401; 403; 404; 400; 402]) /\ kind_of_status st = ErrInternalServer).
Proof.
  unfold kind_of_status, kind_table. cbn [table_find].
  destruct (Z.eqb_spec 401 st); [subst; tauto|].
  destruct (Z.eqb_spec 403 st); [subst; tauto|].
  destruct (Z.eqb_spec 404 st); [subst; tauto|].
  destruct (Z.eqb_spec 400 st); [subst; tauto|].
  destruct (Z.eqb_spec 402 st); [subst; tauto|].
  do 5 right. split; [|reflexivity].
  rewrite !elem_of_cons, elem_of_nil. intuition congruence.
Qed.

(** X1.  IsQuotaExceeded accepts what the classifier returns exactly
    when the status is 402 or the body carries one of the quota codes,
    whichever of the two variants was built. *)
Theorem quota_exceeded_recognised (st : Z) (body : list Byte.byte) :
  IsQuotaExceeded (returned (Some (parseHTTPError st body))) = true <->
  st = 402 \/ quota_match body = true.
Proof.
  destruct (quota_match_cases st body)
    as [(Hq & q & -> & _ & _) | (Hq & e & -> & Hc & _)].
  - cbn. tauto.
  - cbn. rewrite Hc, Hq.
    destruct (kind_of_status_cases st)
      as [[-> ->]|[[-> ->]|[[-> ->]|[[-> ->]|[[-> ->]|[Hst ->]]]]]];
      cbn; try (split; [discriminate | intros [?|?]; discriminate]).
    + tauto.
    + split; [discriminate|]. intros [->|?]; [|discriminate].
      exfalso. apply Hst. rewrite !elem_of_cons. tauto.
Qed.

(** X2.  On what the classifier returns, IsUnauthorized, IsForbidden,
    IsNotFound and IsBadRequest hold exactly for the statuses 401, 403, 404
    and 400 of a failure that is not a quota-code match; IsNetworkError and
    IsTimeout never hold. *)
Theorem status_predicates_on_classified (st : Z) (body : list Byte.byte) :
  let err := returned (Some (parseHTTPError st body)) in
  IsUnauthorized err = negb (quota_match body) && (st =? 401) /\
  IsForbidden err = negb (quota_match body) && (st =? 403) /\
  IsNotFound err = negb (quota_match body) && (st =? 404) /\
  IsBadRequest err = negb (quota_match body) && (st =? 400) /\
  IsNetworkError err = false /\
  IsTimeout err = false.
Proof.
  cbv zeta.
  destruct (quota_match_cases st body)
    as [(Hq & q & -> & _ & _) | (Hq & e & -> & Hc & _)]; rewrite Hq.
  - cbn. tauto.
  - unfold IsUnauthorized, IsForbidden, IsNotFound, IsBadRequest,
      IsNetworkError, IsTimeout. cbn. rewrite Hc.
    destruct (kind_of_status_cases st)
      as [[-> ->]|[[-> ->]|[[-> ->]|[[-> ->]|[[-> ->]|[Hst ->]]]]]];
      cbn; try tauto.
    rewrite !elem_of_cons, elem_of_nil in Hst.
    repeat split; symmetry; apply Z.eqb_neq; tauto.
Qed.

(** X3.  For every error value, wrapped or not, nil included, at most one
    of the seven predicates holds. *)
Theorem predicates_exclusive (err : option goerror) :
  (count_true (kind_predicates err) <= 1)%nat.
Proof.
  unfold kind_predicates, IsUnauthorized, IsForbidden, IsNotFound,
    IsBadRequest, IsQuotaExceeded, IsNetworkError, IsTimeout.
  destruct (errors_As_Error err) as [e|].
  - destruct (String.eqb_spec (Error.Code e) ErrUnauthorized) as [->|_];
      [vm_compute; lia|].
    destruct (String.eqb_spec (Error.Code e) ErrForbidden) as [->|_];
      [vm_compute; lia|].
    destruct (String.eqb_spec (Error.Code e) ErrNotFound) as [->|_];
      [vm_compute; lia|].
    destruct (String.eqb_spec (Error.Code e) ErrBadRequest) as [->|_];
      [vm_compute; lia|].
    destruct (String.eqb_spec (Error.Code e) ErrQuotaExceeded) as [->|_];
      [vm_compute; lia|].
    destruct (String.eqb_spec (Error.Code e) ErrNetworkError) as [->|_];
      [vm_compute; lia|].
    destruct (String.eqb (Error.Code e) ErrTimeout); vm_compute; lia.
  - destruct (errors_As_QuotaError err); vm_compute; lia.
Qed.

(** X4.  GetStatusCode and GetErrorCode give the status and the kind of
    every generic error of the classifier, and nothing for the quota
    variant, although that variant carries the status. *)
Theorem accessors_on_classified (st : Z) (body : list Byte.byte) :
  let r := parseHTTPError st body in
  status_of r = st /\
  GetStatusCode (returned (Some r))
    = (if quota_match body then (0, false) else (st, true)) /\
  GetErrorCode (returned (Some r))
    = (if quota_match body then ("", false) else (kind_of_status st, true)).
Proof.
  cbv zeta.
  destruct (quota_match_cases st body)
    as [(Hq & q & -> & _ & Hs) | (Hq & e & -> & Hc & Hs)]; rewrite Hq; cbn.
  - auto.
  - rewrite Hc, Hs. auto.
Qed.

End Inspecting.

(** ** What every call does, whatever the environment *)

Section Calls.
Context `{Env}.
Variables (c : httpClient) (ctx : context) (method path : string).
Variables (body : option any) (result : option loc).

Abbreviation attempt := (executeRequest c ctx method path body result).
Abbreviation turns n a last :=
  (retry_loop n a last c ctx method path body result).
Abbreviation call := (doRequest c ctx method path body result).
Abbreviation ready := (prepared c ctx method path body).
Abbreviation pause := (after_wait c ctx).

Lemma only_sends_count (evs : list event) :
  only_sends evs -> sends evs = length evs.
Proof.
  induction 1 as [|ev evs Hev _ IH]; [reflexivity|].
  change (ev :: evs) with ([ev] ++ evs)%list.
  rewrite sends_app, IH. unfold sends at 1.
  rewrite filter_cons_True, filter_nil by (rewrite Hev; exact I).
  reflexivity.
Qed.

Lemma no_send_count (ev : event) : is_send ev = false -> sends [ev] = 0%nat.
Proof.
  intros Hev. unfold sends.
  rewrite filter_cons_False, filter_nil by (rewrite Hev; exact id).
  reflexivity.
Qed.

Lemma prepared_unique (req1 req2 : Request) :
  ready req1 -> ready req2 -> req1 = req2.
Proof.
  intros (u1 & b1 & Hu1 & Hb1 & _ & ->) (u2 & b2 & Hu2 & Hb2 & _ & ->).
  rewrite Hu1 in Hu2. injection Hu2 as ->.
  destruct body as [b|].
  - destruct Hb1 as (j1 & Hj1 & ->), Hb2 as (j2 & Hj2 & ->).
    rewrite Hj1 in Hj2. injection Hj2 as ->. reflexivity.
  - subst. reflexivity.
Qed.

(** An attempt whose request can be built sends it, and goes on with what
    comes back. *)
Lemma prepared_attempt (req : Request) (rt : roundtrip) (w' : world)
    (s : state) :
  ready req ->
  client_Do (client c) ctx req (st_world s) = (rt, w') ->
  attempt s =
    let s1 := mkState _ w' (st_heap s) (st_trace s ++ [EvDo req])%list in
    match rt with
    | DoFailed err => (new_error ErrNetworkError "request failed" err, s1)
    | ReadFailed _ err =>
        (new_error ErrNetworkError "failed to read response body" err, s1)
    | Response status respBody =>
        if 400 <=? status then (Some (parseHTTPError status respBody), s1)
        else
          match result with
          | Some dst =>
              if (0 <? length respBody)%nat then
                let (err, s2) := decode respBody dst s1 in
                match err with
                | Some cause =>
                    (new_error ErrInternalServer "failed to parse response"
                       cause, s2)
                | None => (None, s2)
                end
              else (None, s1)
          | None => (None, s1)
          end
    end.
Proof.
  intros (reqURL & bodyReader & Hurl & Hbody & Hnew & ->) Hdo.
  unfold executeRequest, bind, ret, send. rewrite Hurl.
  assert (Hm : match body with
               | Some b0 => match json_Marshal b0 with
                            | inl err => inl err
                            | inr jsonBody => inr (Some jsonBody)
                            end
               | None => inr None
               end = inr bodyReader).
  { destruct body as [b0|].
    - destruct Hbody as (jsonBody & Hb & ->). rewrite Hb. reflexivity.
    - subst bodyReader. reflexivity. }
  rewrite Hm, Hnew, Hdo. cbv zeta.
  destruct rt as [err|st err|st b]; try reflexivity.
  destruct (400 <=? st); [reflexivity|].
  destruct result as [dst|]; [|reflexivity].
  destruct (0 <? length b)%nat; [|reflexivity].
  destruct (decode b dst _) as [[cause|] s2]; reflexivity.
Qed.

(** Whatever an attempt sends is the request of the call. *)
Lemma attempt_sends_ready (s : state) :
  exists evs,
    st_trace (snd (attempt s)) = (st_trace s ++ evs)%list /\
    Forall (fun ev => forall req, ev = EvDo req -> ready req) evs.
Proof.
  unfold executeRequest, bind, ret, send, new_error.
  destruct (url_JoinPath _ _) as [err|reqURL] eqn:Hurl;
    [exists []; rewrite app_nil_r; split; [reflexivity|constructor]|].
  destruct (match body with Some _ => _ | None => _ end)
    as [err|bodyReader] eqn:Hm;
    [exists []; rewrite app_nil_r; split; [reflexivity|constructor]|].
  destruct (http_NewRequestWithContext _ _ _ _) as [err|] eqn:Hnew;
    [exists []; rewrite app_nil_r; split; [reflexivity|constructor]|].
  assert (Hready : ready (mkRequest method reqURL bodyReader (set_headers c))).
  { exists reqURL, bodyReader. repeat split; try assumption.
    destruct body as [b|].
    - destruct (json_Marshal b) as [err|jsonBody]; [discriminate|].
      injection Hm as <-. eauto.
    - injection Hm as <-. reflexivity. }
  exists [EvDo (mkRequest method reqURL bodyReader (set_headers c))].
  split.
  - destruct (client_Do _ _ _ _) as [rt w]. unfold decode.
    repeat case_match; simplify_eq/=; reflexivity.
  - constructor; [|constructor]. intros req [= <-]. exact Hready.
Qed.

(** An attempt writes to its own destination only. *)
Lemma attempt_heap_frame (s : state) (l : loc) :
  result <> Some l ->
  st_heap (snd (attempt s)) !! l = st_heap s !! l.
Proof.
  intros Hl. unfold executeRequest, bind, ret, send, decode, new_error.
  repeat case_match; simplify_eq/=; try reflexivity;
    apply lookup_insert_ne; congruence.
Qed.

Lemma kind_of_status_known (st : Z) :
  kind_of_status st ∈ transport_kinds /\ kind_of_status st <> ErrTimeout.
Proof.
  unfold transport_kinds. rewrite !elem_of_cons.
  destruct (kind_of_status_cases st)
    as [[_ ->]|[[_ ->]|[[_ ->]|[[_ ->]|[[_ ->]|[_ ->]]]]]];
    (split; [tauto | discriminate]).
Qed.

(** The errors of an attempt: never the timeout kind, and a status only
    from a response of 400 and above. *)
Lemma attempt_error_kinds (s : state) (e : sdkerror) :
  fst (attempt s) = Some e ->
  code_of e ∈ transport_kinds /\ code_of e <> ErrTimeout /\
  (status_of e = 0 \/ 400 <= status_of e).
Proof.
  assert (Hlocal : forall code msg cause,
             (code = ErrValidation \/ code = ErrNetworkError \/
              code = ErrInternalServer) ->
             new_error code msg cause = Some e ->
             code_of e ∈ transport_kinds /\ code_of e <> ErrTimeout /\
             (status_of e = 0 \/ 400 <= status_of e)).
  { intros code msg cause Hcode [= <-]. cbn.
    unfold transport_kinds. rewrite !elem_of_cons.
    destruct Hcode as [-> | [-> | ->]]; (split; [tauto|]);
      (split; [discriminate | left; reflexivity]). }
  unfold executeRequest, bind, ret, send.
  destruct (url_JoinPath _ _) as [err|reqURL]; [apply Hlocal; tauto|].
  destruct (match body with Some _ => _ | None => _ end)
    as [err|bodyReader]; [apply Hlocal; tauto|].
  destruct (http_NewRequestWithContext _ _ _ _) as [err|];
    [apply Hlocal; tauto|].
  destruct (client_Do _ _ _ _) as [rt w].
  destruct rt as [err|st err|st b];
    [apply Hlocal; tauto | apply Hlocal; tauto |].
  destruct (Z.leb_spec 400 st) as [Hst|Hst].
  - cbn. intros [= <-].
    destruct (quota_match_cases st b)
      as [(_ & q & -> & Hc & Hs) | (_ & e0 & -> & Hc & Hs)]; cbn;
      rewrite Hc, Hs.
    + unfold transport_kinds. rewrite !elem_of_cons.
      split; [tauto|]. split; [discriminate | right; exact Hst].
    + destruct (kind_of_status_known st). auto.
  - destruct result as [dst|]; [|discriminate].
    destruct (0 <? length b)%nat; [|discriminate].
    destruct (decode b dst _) as [[cause|] s2]; [|discriminate].
    apply Hlocal. tauto.
Qed.

Lemma prepared_attempt_trace (req : Request) (s : state) :
  ready req ->
  st_trace (snd (attempt s)) = (st_trace s ++ [EvDo req])%list.
Proof.
  intros Hready.
  destruct (client_Do (client c) ctx req (st_world s)) as [rt w'] eqn:Hdo.
  rewrite (prepared_attempt req rt w' s Hready Hdo). cbv zeta.
  destruct rt as [err|st err|st b]; try reflexivity.
  destruct (400 <=? st); [reflexivity|].
  destruct result as [dst|]; [|reflexivity].
  destruct (0 <? length b)%nat; [|reflexivity].
  unfold decode. cbn.
  destruct (st_heap s !! dst) as [v|]; [|reflexivity].
  destruct (json_Unmarshal b v) as [[cause|] v']; reflexivity.
Qed.

(** One full turn of the loop that is not cancelled: what it adds to the
    trace. *)
Lemma turn_events (a : Z) (s s1 : state) (r : option sdkerror) (s2 : state) :
  pause a s = (None, s1) ->
  attempt s1 = (r, s2) ->
  exists evt,
    st_trace (logged a r s2) = (st_trace s ++ evt)%list /\
    schedule evt
      = ((if 0 <? a then [Wait (wrap64 (retryWait c * a))] else [])
         ++ [Attempt a])%list /\
    attempt_results evt = [r] /\
    (sends evt <= 1)%nat /\
    (forall req, ready req -> sends evt = 1%nat) /\
    Forall (fun ev => is_cancel ev = false) evt /\
    Forall (fun ev => forall req, ev = EvDo req -> ready req) evt.
Proof.
  intros Hw Ha.
  apply after_wait_trace in Hw as (_ & evw & Htw & Hevw).
  destruct (executeRequest_frame c ctx method path body result s1)
    as (evs1 & H1 & Hs1 & Hlen).
  destruct (attempt_sends_ready s1) as (evs1' & H1' & Hready).
  rewrite H1 in H1'. apply app_inv_head in H1'. subst evs1'.
  rewrite Ha in H1. cbn in H1.
  assert (Hevw_sched : schedule evw
            = if 0 <? a then [Wait (wrap64 (retryWait c * a))] else [])
    by (subst evw; destruct (0 <? a); reflexivity).
  assert (Hevw_res : attempt_results evw = [])
    by (subst evw; destruct (0 <? a); reflexivity).
  assert (Hevw_sends : sends evw = 0%nat)
    by (subst evw; destruct (0 <? a); reflexivity).
  exists (evw ++ evs1 ++ [EvAttempt a r])%list.
  split; [cbn; rewrite H1, Htw, <- !app_assoc; reflexivity|].
  split; [rewrite !schedule_app, Hevw_sched, (only_sends_schedule evs1 Hs1);
          reflexivity|].
  split; [rewrite !attempt_results_app, Hevw_res,
            (only_sends_results evs1 Hs1); reflexivity|].
  assert (Hcount : sends (evw ++ evs1 ++ [EvAttempt a r]) = length evs1).
  { rewrite !sends_app, Hevw_sends, (only_sends_count evs1 Hs1).
    rewrite (no_send_count (EvAttempt a r)) by reflexivity. lia. }
  split; [lia|]. split; [|split].
  - intros req Hreq. rewrite Hcount.
    pose proof (prepared_attempt_trace req s1 Hreq) as Ht.
    rewrite Ha in Ht. cbn in Ht. rewrite H1 in Ht.
    apply app_inv_head in Ht. subst evs1. reflexivity.
  - rewrite !Forall_app. split; [|split].
    + subst evw. destruct (0 <? a); repeat constructor.
    + apply only_sends_no_cancel, Hs1.
    + repeat constructor.
  - rewrite !Forall_app. split; [|split].
    + subst evw. destruct (0 <? a); repeat constructor; discriminate.
    + exact Hready.
    + repeat constructor. discriminate.
Qed.

(** The schedule of any run of the loop: a prefix of the linear schedule,
    or such a prefix ended by a wait that was cut short. *)
Lemma retry_loop_shape (n : nat) :
  forall a last s,
  exists evs k,
    st_trace (snd (turns n a last s)) = (st_trace s ++ evs)%list /\
    (k <= n)%nat /\
    length (attempt_results evs) = k /\
    (sends evs <= k)%nat /\
    (forall req, ready req -> sends evs = k) /\
    Forall (fun ev => forall req, ev = EvDo req -> ready req) evs /\
    (schedule evs = linear_schedule (retryWait c) a k \/
     ((k < n)%nat /\ 0 < a + Z.of_nat k /\
      schedule evs
        = (linear_schedule (retryWait c) a k
           ++ [Abort (wrap64 (retryWait c * (a + Z.of_nat k)))])%list)).
Proof.
  induction n as [|n IH]; intros a last s.
  - exists [], 0%nat. rewrite loop_zero, app_nil_r. cbn.
    repeat split; auto.
  - destruct (pause a s) as [r0 s1] eqn:Hw. destruct r0 as [cause|].
    + rewrite (loop_cancelled c ctx method path body result n a last s
                 cause s1 Hw). cbn [snd].
      apply after_wait_trace in Hw as (_ & evw & Htw & Ha & ->).
      exists [EvCancelled (wrap64 (retryWait c * a)) cause], 0%nat.
      split; [exact Htw|].
      split; [lia|]. split; [reflexivity|].
      split; [rewrite (no_send_count (EvCancelled _ cause) eq_refl); lia|].
      split; [intros; apply (no_send_count (EvCancelled _ cause) eq_refl)|].
      split; [repeat constructor; discriminate|].
      right. rewrite Z.add_0_r. split; [lia|]. split; [lia | reflexivity].
    + destruct (attempt s1) as [r s2] eqn:Ha.
      rewrite (loop_attempt c ctx method path body result n a last s s1 r s2
                 Hw Ha).
      destruct (turn_events a s s1 r s2 Hw Ha)
        as (evt & Htr & Hsch & Hres & Hle & Heq & _ & Hready).
      assert (Hstop : exists evs k,
         st_trace (logged a r s2) = (st_trace s ++ evs)%list /\
         (k <= S n)%nat /\ length (attempt_results evs) = k /\
         (sends evs <= k)%nat /\
         (forall req, ready req -> sends evs = k) /\
         Forall (fun ev => forall req, ev = EvDo req -> ready req) evs /\
         (schedule evs = linear_schedule (retryWait c) a k \/
          ((k < S n)%nat /\ 0 < a + Z.of_nat k /\
           schedule evs
             = (linear_schedule (retryWait c) a k
                ++ [Abort (wrap64 (retryWait c * (a + Z.of_nat k)))])%list))).
      { exists evt, 1%nat. split; [exact Htr|]. split; [lia|].
        split; [rewrite Hres; reflexivity|]. split; [exact Hle|].
        split; [exact Heq|]. split; [exact Hready|].
        left. rewrite Hsch. cbn [linear_schedule].
        rewrite app_nil_r. reflexivity. }
      destruct r as [e|]; [destruct (is_client_error e)|];
        [exact Hstop | | exact Hstop].
      destruct (IH (a + 1) (Some e) (logged a (Some e) s2))
        as (evs' & k' & Htr' & Hk' & Hlen' & Hle' & Heq' & Hready' & Hsh').
      exists (evt ++ evs')%list, (S k').
      split; [rewrite Htr', Htr, <- app_assoc; reflexivity|].
      split; [lia|].
      split; [rewrite attempt_results_app, length_app, Hres, Hlen';
              reflexivity|].
      split; [rewrite sends_app; lia|].
      split; [intros req Hreq; rewrite sends_app, (Heq req Hreq),
                (Heq' req Hreq); reflexivity|].
      split; [apply Forall_app; auto|].
      rewrite schedule_app, Hsch. cbn [linear_schedule].
      replace (a + Z.of_nat (S k')) with (a + 1 + Z.of_nat k') by lia.
      destruct Hsh' as [-> | (Hlt & Hpos & ->)].
      * left. rewrite <- !app_assoc. reflexivity.
      * right. split; [lia|]. split; [exact Hpos|].
        rewrite <- !app_assoc. reflexivity.
Qed.

(** Where the result of the loop comes from. *)
Lemma retry_loop_outcome (n : nat) :
  forall a last s,
  exists evs,
    st_trace (snd (turns n a last s)) = (st_trace s ++ evs)%list /\
    ((Forall (fun ev => is_cancel ev = false) evs /\
      (fst (turns n a last s) = last \/
       exists s1, fst (turns n a last s) = fst (attempt s1))) \/
     (exists pre d err,
        evs = (pre ++ [EvCancelled d err])%list /\
        fst (turns n a last s) = Some (cancelled_error err))).
Proof.
  induction n as [|n IH]; intros a last s.
  - exists []. rewrite loop_zero, app_nil_r. split; [reflexivity|].
    left. split; [constructor | left; reflexivity].
  - destruct (pause a s) as [r0 s1] eqn:Hw. destruct r0 as [cause|].
    + rewrite (loop_cancelled c ctx method path body result n a last s
                 cause s1 Hw). cbn [fst snd].
      apply after_wait_trace in Hw as (_ & evw & Htw & _ & ->).
      eexists. split; [exact Htw|]. right.
      exists [], (wrap64 (retryWait c * a)), cause. split; reflexivity.
    + destruct (attempt s1) as [r s2] eqn:Ha.
      rewrite (loop_attempt c ctx method path body result n a last s s1 r s2
                 Hw Ha).
      destruct (turn_events a s s1 r s2 Hw Ha)
        as (evt & Htr & _ & _ & _ & _ & Hnc & _).
      assert (Hfrom : exists s0, r = fst (attempt s0))
        by (exists s1; rewrite Ha; reflexivity).
      destruct r as [e|]; [destruct (is_client_error e)|].
      * exists evt. split; [exact Htr|]. left. split; [exact Hnc|].
        right. exact Hfrom.
      * destruct (IH (a + 1) (Some e) (logged a (Some e) s2))
          as (evs' & Htr' & Hcases).
        exists (evt ++ evs')%list.
        split; [rewrite Htr', Htr, <- app_assoc; reflexivity|].
        destruct Hcases as [[Hnc' [Hlast | Hatt]]
                           | (pre & d & err & -> & Hres)].
        -- left. split; [apply Forall_app; auto|].
           right. rewrite Hlast. exact Hfrom.
        -- left. split; [apply Forall_app; auto|]. right. exact Hatt.
        -- right. exists (evt ++ pre)%list, d, err.
           split; [rewrite <- app_assoc; reflexivity | exact Hres].
      * exists evt. split; [exact Htr|]. left. split; [exact Hnc|].
        right. exact Hfrom.
Qed.

(** X5.  Whatever the servers, the network and the caller do, a call makes
    at most maxRetries+1 attempts, numbered from 0 without a gap, sends at
    most one request per attempt, and waits retryWait*a before the attempt
    a > 0 and at no other time; the only other thing it can do is to end on
    a wait that was cut short. *)
Theorem call_schedule_shape (s : state) :
  exists evs k,
    st_trace (snd (call s)) = (st_trace s ++ evs)%list /\
    (k <= Z.to_nat (maxRetries c + 1))%nat /\
    length (attempt_results evs) = k /\
    (sends evs <= k)%nat /\
    (schedule evs = linear_schedule (retryWait c) 0 k \/
     ((0 < k < Z.to_nat (maxRetries c + 1))%nat /\
      schedule evs
        = (linear_schedule (retryWait c) 0 k
           ++ [Abort (wrap64 (retryWait c * Z.of_nat k))])%list)).
Proof.
  unfold doRequest.
  destruct (retry_loop_shape (Z.to_nat (maxRetries c + 1)) 0 None s)
    as (evs & k & Htr & Hk & Hlen & Hle & _ & _ & Hsh).
  exists evs, k. split; [exact Htr|]. split; [exact Hk|].
  split; [exact Hlen|]. split; [exact Hle|].
  destruct Hsh as [Hsh | (Hlt & Hpos & Hsh)]; [left; exact Hsh|].
  right. split; [lia | exact Hsh].
Qed.

(** X6.  Every request a call puts on the network is the one request built
    from its arguments: the method of the call, the URL joined from the
    base URL and the path, the serialized body (none for a call without
    body) and the headers of the transport; all attempts send the same
    request, and when that request can be built each attempt sends it
    once. *)
Theorem requests_of_a_call (s : state) :
  exists evs,
    st_trace (snd (call s)) = (st_trace s ++ evs)%list /\
    (forall req, In (EvDo req) evs ->
       ready req /\ req_method req = method /\
       req_header req = set_headers c /\
       (body = None -> req_body req = None)) /\
    (forall req1 req2, In (EvDo req1) evs -> In (EvDo req2) evs ->
       req1 = req2) /\
    (forall req, ready req -> sends evs = length (attempt_results evs)).
Proof.
  unfold doRequest.
  destruct (retry_loop_shape (Z.to_nat (maxRetries c + 1)) 0 None s)
    as (evs & k & Htr & _ & Hlen & _ & Heq & Hready & _).
  rewrite Forall_forall in Hready.
  assert (Hin : forall req, In (EvDo req) evs -> ready req).
  { intros req Hreq. apply list_elem_of_In in Hreq.
    exact (Hready _ Hreq req eq_refl). }
  exists evs. split; [exact Htr|]. split; [|split].
  - intros req Hreq. pose proof (Hin req Hreq) as Hr.
    split; [exact Hr|].
    destruct Hr as (reqURL & bodyReader & _ & Hbody & _ & ->). cbn.
    split; [reflexivity|]. split; [reflexivity|].
    intros Hnone. rewrite Hnone in Hbody. exact Hbody.
  - intros req1 req2 H1 H2. apply prepared_unique; auto.
  - intros req Hreq. rewrite Hlen. exact (Heq req Hreq).
Qed.

Lemma headers_of_transport :
  Header_lookup "Content-Type" (set_headers c) = Some "application/json" /\
  Header_lookup "Accept" (set_headers c) = Some "application/json" /\
  Header_lookup "Authorization" (set_headers c)
    = (if is_empty (token c) then None else Some ("Bearer " +:+ token c)) /\
  Header_lookup "X-Admin-Token" (set_headers c)
    = (if is_empty (adminToken c) then None else Some (adminToken c)) /\
  Forall (fun key => In key ["Content-Type"; "Accept"; "Authorization";
                            "X-Admin-Token"])
    (map fst (set_headers c)).
Proof.
  unfold set_headers.
  destruct (is_empty (token c)), (is_empty (adminToken c)); cbn;
    (split; [reflexivity|]); (split; [reflexivity|]);
    (split; [reflexivity|]); (split; [reflexivity|]);
    repeat (constructor;
            [first [ left; reflexivity
                   | right; left; reflexivity
                   | right; right; left; reflexivity
                   | right; right; right; left; reflexivity ] |]);
    constructor.
Qed.

(** X7.  The headers of a request: Content-Type and Accept are always the
    JSON media type; Authorization is present exactly when the bearer token
    is not empty, and is then the word Bearer, a space and the token;
    X-Admin-Token is present exactly when the admin token is not empty; the
    two credentials are independent, and there is no other header. *)
Theorem injected_headers :
  Header_lookup "Content-Type" (set_headers c) = Some "application/json" /\
  Header_lookup "Accept" (set_headers c) = Some "application/json" /\
  Header_lookup "Authorization" (set_headers c)
    = (if is_empty (token c) then None else Some ("Bearer " +:+ token c)) /\
  Header_lookup "X-Admin-Token" (set_headers c)
    = (if is_empty (adminToken c) then None else Some (adminToken c)) /\
  Forall (fun key => In key ["Content-Type"; "Accept"; "Authorization";
                            "X-Admin-Token"])
    (map fst (set_headers c)).
Proof. exact headers_of_transport. Qed.

(** X8.  A response with a status in [400,500) whose body is not a quota
    match ends the call on the spot: when it answers the first attempt, the
    call has sent one request, has waited for nothing, has left every
    destination alone, and returns the generic error of that status. *)
Theorem client_error_ends_call (req : Request) (st : Z) (b : list Byte.byte)
    (w' : world) (s : state) :
  ready req ->
  client_Do (client c) ctx req (st_world s) = (Response st b, w') ->
  400 <= st < 500 ->
  quota_match b = false ->
  0 <= maxRetries c ->
  call s
    = (Some (parseHTTPError st b),
       mkState _ w' (st_heap s)
         (st_trace s ++ [EvDo req; EvAttempt 0 (Some (parseHTTPError st b))])%list)
  /\ exists e, parseHTTPError st b = ErrorPtr e /\
               Error.Code e = kind_of_status st /\
               Error.StatusCode e = st.
Proof.
  intros Hready Hdo Hst Hq Hmax.
  assert (Ha : attempt s
               = (Some (parseHTTPError st b),
                  mkState _ w' (st_heap s) (st_trace s ++ [EvDo req])%list)).
  { rewrite (prepared_attempt req _ w' s Hready Hdo). cbv beta iota zeta.
    rewrite (proj2 (Z.leb_le 400 st)) by lia. reflexivity. }
  split.
  - unfold doRequest.
    destruct (Z.to_nat (maxRetries c + 1)) as [|n] eqn:Hn; [lia|].
    rewrite (loop_attempt c ctx method path body result n 0 None s s _ _
               eq_refl Ha).
    rewrite (parse_generic st b Hq). cbn [is_client_error Error.StatusCode].
    destruct (Z.leb_spec 400 st) as [_|?]; [|lia].
    destruct (Z.ltb_spec st 500) as [_|?]; [|lia]. cbn [andb].
    unfold logged. cbn [st_world st_heap st_trace].
    rewrite <- app_assoc. reflexivity.
  - rewrite (parse_generic st b Hq). eexists. repeat split.
Qed.

(** X9.  A response with a status below 400 and a body that decodes: when
    it answers the first attempt, the call returns nil after one request
    and no wait, and the destination holds the decoded value; nothing else
    in the store changes. *)
Theorem response_decoded (req : Request) (st : Z) (b : list Byte.byte)
    (w' : world) (s : state) (dst : loc) (v v' : dest) :
  result = Some dst ->
  ready req ->
  client_Do (client c) ctx req (st_world s) = (Response st b, w') ->
  st < 400 ->
  b <> [] ->
  st_heap s !! dst = Some v ->
  json_Unmarshal b v = (None, v') ->
  0 <= maxRetries c ->
  call s
    = (None,
       mkState _ w' (<[dst := v']> (st_heap s))
         (st_trace s ++ [EvDo req; EvAttempt 0 None])%list).
Proof.
  intros Hres Hready Hdo Hst Hb Hv Hdec Hmax.
  assert (Hlen : (0 <? length b)%nat = true)
    by (destruct b; [congruence | reflexivity]).
  assert (Ha : attempt s
               = (None,
                  mkState _ w' (<[dst := v']> (st_heap s))
                    (st_trace s ++ [EvDo req])%list)).
  { rewrite (prepared_attempt req _ w' s Hready Hdo). cbv beta iota zeta.
    rewrite (proj2 (Z.leb_gt 400 st)) by lia.
    rewrite Hres, Hlen. unfold decode. cbn [st_heap st_world st_trace].
    rewrite Hv, Hdec. reflexivity. }
  unfold doRequest.
  destruct (Z.to_nat (maxRetries c + 1)) as [|n] eqn:Hn; [lia|].
  rewrite (loop_attempt c ctx method path body result n 0 None s s _ _
             eq_refl Ha).
  unfold logged. cbn [st_world st_heap st_trace].
  rewrite <- app_assoc. reflexivity.
Qed.

(** X10.  A response with a status below 400 whose body does not decode is
    not taken as a success: the error has the internal-server kind and no
    status, so the loop goes on, and against a server that keeps answering
    so the same request is sent maxRetries+1 times before the call returns
    that error. *)
Theorem undecodable_response_resent (req : Request) (st : Z)
    (b : list Byte.byte) (dst : loc) (s : state) :
  result = Some dst ->
  ready req ->
  (forall w, fst (client_Do (client c) ctx req w) = Response st b) ->
  st < 400 ->
  b <> [] ->
  (forall v, fst (json_Unmarshal b v) <> None) ->
  (forall d w, fst (select_Done_or_After ctx d w) = None) ->
  0 <= maxRetries c < max_int ->
  exists evs e,
    st_trace (snd (call s)) = (st_trace s ++ evs)%list /\
    sends evs = Z.to_nat (maxRetries c + 1) /\
    schedule evs
      = linear_schedule (retryWait c) 0 (Z.to_nat (maxRetries c + 1)) /\
    fst (call s) = Some (ErrorPtr e) /\
    Error.Code e = ErrInternalServer /\
    Error.Message e = "failed to parse response" /\
    Error.StatusCode e = 0.
Proof.
  intros Hres Hready Hsrv Hst Hb Hdec Hnever Hmax.
  set (Q := fun err => exists e, err = ErrorPtr e /\
                                 Error.Code e = ErrInternalServer /\
                                 Error.Message e = "failed to parse response"
                                 /\ Error.StatusCode e = 0).
  assert (Hexec : forall s0, exists e, fst (attempt s0) = Some e /\
                                       is_client_error e = false /\ Q e).
  { intros s0.
    destruct (client_Do (client c) ctx req (st_world s0)) as [rt w'] eqn:Hdo.
    pose proof (Hsrv (st_world s0)) as Hrt. rewrite Hdo in Hrt.
    cbn in Hrt. subst rt.
    rewrite (prepared_attempt req _ w' s0 Hready Hdo). cbv beta iota zeta.
    rewrite (proj2 (Z.leb_gt 400 st)) by lia. rewrite Hres.
    assert (Hlen : (0 <? length b)%nat = true)
      by (destruct b; [congruence | reflexivity]).
    rewrite Hlen. unfold decode. cbn [st_heap].
    destruct (st_heap s0 !! dst) as [v|].
    - specialize (Hdec v). destruct (json_Unmarshal b v) as [[cause|] v'];
        [|cbn in Hdec; congruence].
      cbn. eexists. split; [reflexivity|]. split; [reflexivity|].
      eexists. repeat split.
    - cbn. eexists. split; [reflexivity|]. split; [reflexivity|].
      eexists. repeat split. }
  unfold doRequest.
  destruct (retry_loop_exhausts c ctx method path body result Q Hnever Hexec
              (Z.to_nat (maxRetries c + 1)) 0 None s)
    as (evs & Htr & Hsch & Hlen & Hall & Hresult).
  destruct (retry_loop_shape (Z.to_nat (maxRetries c + 1)) 0 None s)
    as (evs' & k & Htr' & _ & Hlen' & _ & Heq & _).
  rewrite Htr in Htr'. apply app_inv_head in Htr'. subst evs'.
  assert (Hne : attempt_results evs <> []).
  { intros E. rewrite E in Hlen. cbn in Hlen. lia. }
  destruct (Forall_last _ _ None Hall Hne)
    as (e' & He' & _ & e & -> & Hc & Hm & Hs).
  exists evs, e. rewrite Hresult, He'.
  split; [exact Htr|].
  split; [rewrite (Heq req Hready), <- Hlen', Hlen; reflexivity|].
  split; [exact Hsch|]. auto.
Qed.

(** X11.  A call writes to no destination but its own: the value behind
    any other address is the same after the call, and a call without a
    destination leaves the whole store as it was. *)
Theorem other_destinations_untouched (s : state) (l : loc) :
  result <> Some l ->
  st_heap (snd (call s)) !! l = st_heap s !! l.
Proof.
  intros Hl. unfold doRequest.
  apply (retry_loop_preserves c ctx method path body result
           (fun s' => st_heap s' !! l = st_heap s !! l)).
  - intros s0 Hs0. rewrite (attempt_heap_frame s0 l Hl). exact Hs0.
  - intros s0 w ev _ Hs0. exact Hs0.
  - reflexivity.
Qed.

(** X12.  A call returns an error that IsTimeout accepts exactly when one
    of its backoff waits was cut short by the context; no attempt, and in
    particular no request that the context interrupts on the network, ever
    yields the timeout kind. *)
Theorem timeout_iff_cancelled (s : state) :
  exists evs,
    st_trace (snd (call s)) = (st_trace s ++ evs)%list /\
    (IsTimeout (returned (fst (call s))) = true <->
     exists d err, In (EvCancelled d err) evs).
Proof.
  unfold doRequest.
  destruct (retry_loop_outcome (Z.to_nat (maxRetries c + 1)) 0 None s)
    as (evs & Htr & Hcases).
  exists evs. split; [exact Htr|].
  destruct Hcases as [[Hnc Hfrom] | (pre & d & err & -> & ->)].
  - assert (Hno : IsTimeout (returned (fst (turns
                     (Z.to_nat (maxRetries c + 1)) 0 None s))) = false).
    { destruct Hfrom as [-> | [s1 Hs1]]; [reflexivity|].
      destruct (fst (turns _ 0 None s)) as [e|]; [|reflexivity].
      symmetry in Hs1. apply attempt_error_kinds in Hs1 as (_ & Hne & _).
      destruct e as [e|q]; [|reflexivity]. cbn in *.
      apply String.eqb_neq. exact Hne. }
    rewrite Hno. split; [discriminate|].
    intros (d & err & Hin). rewrite Forall_forall in Hnc.
    apply list_elem_of_In, Hnc in Hin. discriminate.
  - split; [|reflexivity]. intros _. exists d, err.
    apply in_or_app. right. left. reflexivity.
Qed.

(** X13.  Every error a call returns carries one of the nine kinds, and a
    status that is either absent (0) or at least 400. *)
Theorem returned_error_kinds (s : state) :
  match fst (call s) with
  | None => True
  | Some e =>
      code_of e ∈ transport_kinds /\
      (status_of e = 0 \/ 400 <= status_of e)
  end.
Proof.
  unfold doRequest.
  destruct (retry_loop_outcome (Z.to_nat (maxRetries c + 1)) 0 None s)
    as (evs & _ & [[_ Hfrom] | (pre & d & err & _ & ->)]).
  - destruct Hfrom as [-> | [s1 Hs1]]; [exact I|].
    destruct (fst (turns _ 0 None s)) as [e|]; [|exact I].
    symmetry in Hs1. apply attempt_error_kinds in Hs1 as (Hin & _ & Hst).
    auto.
  - cbn. split; [|left; reflexivity].
    unfold transport_kinds. rewrite !elem_of_cons. tauto.
Qed.

End Calls.

(** ** Base URLs, options and credentials *)

Section Configuring.
Context `{Env}.

Lemma length_append (s t : string) :
  String.length (s +:+ t) = (String.length s + String.length t)%nat.
Proof.
  induction s as [|a s IH]; [reflexivity|].
  change (S (String.length (s +:+ t))
          = S (String.length s + String.length t)).
  f_equal. exact IH.
Qed.

Lemma substring_whole (t : string) : substring 0 (String.length t) t = t.
Proof.
  induction t as [|a t IH]; [reflexivity|].
  change (String a (substring 0 (String.length t) t) = String a t).
  f_equal. exact IH.
Qed.

Lemma substring_prefix (s t : string) :
  substring 0 (String.length s) (s +:+ t) = s.
Proof.
  induction s as [|a s IH]; [destruct t; reflexivity|].
  change (String a (substring 0 (String.length s) (s +:+ t)) = String a s).
  f_equal. exact IH.
Qed.

Lemma substring_suffix (s t : string) :
  substring (String.length s) (String.length t) (s +:+ t) = t.
Proof.
  induction s as [|a s IH]; [apply substring_whole | exact IH].
Qed.

Lemma substring_split (s : string) :
  forall m, (m <= String.length s)%nat ->
  s = substring 0 m s +:+ substring m (String.length s - m) s.
Proof.
  induction s as [|a s IH]; intros m Hm.
  - destruct m; reflexivity.
  - destruct m as [|m].
    + change (String a s = substring 0 (String.length (String a s))
                             (String a s)).
      rewrite substring_whole. reflexivity.
    + change (String a s
              = String a (substring 0 m s
                          +:+ substring m (String.length s - m) s)).
      f_equal. apply IH. cbn in Hm. lia.
Qed.

Lemma TrimSuffix_appended (s suffix : string) :
  TrimSuffix (s +:+ suffix) suffix = s.
Proof.
  unfold TrimSuffix. rewrite length_append.
  replace (String.length s + String.length suffix - String.length suffix)%nat
    with (String.length s) by lia.
  rewrite substring_suffix, String.eqb_refl, substring_prefix.
  destruct (_ <=? _)%nat eqn:E; [reflexivity|].
  apply Nat.leb_gt in E. lia.
Qed.

Lemma TrimSuffix_other (s suffix : string) :
  (forall s', s <> s' +:+ suffix) -> TrimSuffix s suffix = s.
Proof.
  intros Hno. unfold TrimSuffix.
  destruct (String.length suffix <=? String.length s)%nat eqn:Hle;
    [|reflexivity].
  destruct (String.eqb_spec
              (substring (String.length s - String.length suffix)
                 (String.length suffix) s) suffix) as [Heq|_];
    [|reflexivity].
  exfalso. apply Nat.leb_le in Hle.
  apply (Hno (substring 0 (String.length s - String.length suffix) s)).
  pose proof (substring_split s (String.length s - String.length suffix))
    as Hs.
  replace (String.length s - (String.length s - String.length suffix))%nat
    with (String.length suffix) in Hs by lia.
  rewrite Heq in Hs. apply Hs. lia.
Qed.

Lemma no_admin_header (t : httpClient) :
  adminToken t = "" ->
  Header_lookup "X-Admin-Token" (set_headers t) = None.
Proof.
  intros Ht. destruct (headers_of_transport t) as (_ & _ & _ & Hx & _).
  rewrite Hx, Ht. reflexivity.
Qed.

Lemma no_bearer_header (t : httpClient) :
  token t = "" ->
  Header_lookup "Authorization" (set_headers t) = None.
Proof.
  intros Ht. destruct (headers_of_transport t) as (_ & _ & Ha & _).
  rewrite Ha, Ht. reflexivity.
Qed.

(** X14.  A transport drops one trailing slash of the URL it is given, and
    only one; a URL that does not end in a slash is kept as it is. *)
Theorem base_url_trailing_slash (cl : http_Client) :
  (forall u, baseURL (newHTTPClient cl (u +:+ "/")) = u) /\
  (forall base, (forall u, base <> u +:+ "/") ->
                baseURL (newHTTPClient cl base) = base).
Proof.
  split.
  - intros u. apply TrimSuffix_appended.
  - intros base Hno. apply TrimSuffix_other, Hno.
Qed.

(** X15.  Whatever the options, the client New returns keeps the two
    credentials apart: the eight user-side transports carry the bearer
    token of the configuration and no admin token, so that none of their
    requests has an X-Admin-Token header; the backoffice transport carries
    the admin secret and no bearer token, so that none of its requests has
    an Authorization header; and all transports use one HTTP client. *)
Theorem credentials_kept_apart (getenv : string -> string)
    (opts : list Option) :
  exists cli,
    New getenv opts = inr cli /\
    Forall (fun t => token t = Token (GetConfig cli) /\
                     adminToken t = "" /\
                     Header_lookup "X-Admin-Token" (set_headers t) = None)
      (user_transports cli) /\
    token (Backoffice cli) = "" /\
    adminToken (Backoffice cli) = AdminSecret (GetConfig cli) /\
    Header_lookup "Authorization" (set_headers (Backoffice cli)) = None /\
    Forall (fun t => client t = cl_httpClient cli) (transports cli).
Proof.
  unfold New. cbn [validate].
  eexists. split; [reflexivity|].
  split; [|split; [reflexivity|split; [reflexivity|split]]].
  - unfold user_transports. cbn.
    repeat (constructor;
            [split; [reflexivity|]; split; [reflexivity|];
             apply no_admin_header; reflexivity |]).
    constructor.
  - apply no_bearer_header. reflexivity.
  - unfold transports. cbn. repeat constructor.
Qed.

(** X16.  Among the options that set URLs the last one decides:
    WithEnvironment after WithBaseURL leaves nothing of the base URL, and
    WithBaseURL after WithEnvironment nothing of the environment; both keep
    the token, the admin secret, the timeout, the retry settings, the HTTP
    client and the debug flag. *)
Theorem url_options_last_wins (env : Environment) (base : string)
    (cfg : Config) :
  WithEnvironment env (WithBaseURL base cfg) = WithEnvironment env cfg /\
  WithBaseURL base (WithEnvironment env cfg) = WithBaseURL base cfg /\
  (forall opt, opt = WithEnvironment env \/ opt = WithBaseURL base ->
     Token (opt cfg) = Token cfg /\
     AdminSecret (opt cfg) = AdminSecret cfg /\
     Timeout (opt cfg) = Timeout cfg /\
     MaxRetries (opt cfg) = MaxRetries cfg /\
     RetryWait (opt cfg) = RetryWait cfg /\
     HTTPClient (opt cfg) = HTTPClient cfg /\
     Debug (opt cfg) = Debug cfg).
Proof.
  split; [reflexivity|]. split; [reflexivity|].
  intros opt [-> | ->]; repeat split.
Qed.

(** WithServices replaces exactly the URLs whose argument is not
    empty: with six empty arguments it changes nothing, applying it twice
    is applying it once, and after WithBaseURL each of the six services has
    its own argument or, for an empty one, the base URL. *)
Theorem WithServices_overrides (auth sensor ui workflow backoffice sse : string)
    (base : string) (cfg : Config) :
  let opt := WithServices auth sensor ui workflow backoffice sse in
  WithServices "" "" "" "" "" "" cfg = cfg /\
  opt (opt cfg) = opt cfg /\
  AuthURL (opt (WithBaseURL base cfg))
    = (if is_empty auth then base else auth) /\
  SensorURL (opt (WithBaseURL base cfg))
    = (if is_empty sensor then base else sensor) /\
  UIURL (opt (WithBaseURL base cfg)) = (if is_empty ui then base else ui) /\
  WorkflowURL (opt (WithBaseURL base cfg))
    = (if is_empty workflow then base else workflow) /\
  BackofficeURL (opt (WithBaseURL base cfg))
    = (if is_empty backoffice then base else backoffice) /\
  SSEURL (opt (WithBaseURL base cfg)) = (if is_empty sse then base else sse) /\
  SubscriptionURL (opt (WithBaseURL base cfg)) = base /\
  AudioStreamURL (opt (WithBaseURL base cfg)) = base.
Proof.
  cbv zeta. split; [destruct cfg; reflexivity|].
  split.
  - unfold WithServices. cbn.
    destruct (is_empty auth), (is_empty sensor), (is_empty ui),
      (is_empty workflow), (is_empty backoffice), (is_empty sse);
      reflexivity.
  - unfold WithServices. cbn.
    destruct (is_empty auth), (is_empty sensor), (is_empty ui),
      (is_empty workflow), (is_empty backoffice), (is_empty sse);
      repeat split.
Qed.


(** X18.  Changing a credential on the client after construction gives the
    client that New builds when the credential is passed as the last
    option; the five UI-side clients, which share one transport, still agree
    afterwards, and the retry settings are not touched. *)
Theorem credential_update_as_last_option (getenv : string -> string)
    (opts : list Option) (tok secret : string) (cli : Client) :
  New getenv opts = inr cli ->
  New getenv (opts ++ [WithToken tok])%list = inr (Client_SetToken tok cli) /\
  New getenv (opts ++ [WithAdminSecret secret])%list
    = inr (Client_SetAdminSecret secret cli) /\
  (let cli' := Client_SetToken tok cli in
   Camera cli' = UI cli' /\ Traffic cli' = UI cli' /\
   Popup cli' = UI cli' /\ Groups cli' = UI cli' /\
   Backoffice cli' = Backoffice cli /\
   Forall (fun t => token t = tok) (user_transports cli') /\
   Forall (fun t => maxRetries t = 3 /\ retryWait t = Second)
     (transports cli')).
Proof.
  unfold New. rewrite !fold_options_app. cbn [fold_left validate].
  intros [= <-]. split; [reflexivity|]. split; [reflexivity|].
  cbv zeta. unfold user_transports, transports. cbn.
  repeat split; repeat constructor.
Qed.

End Configuring.

(** ** Sending several sensor readings *)

Section Sensors.
Context `{Env}.
Variables (c : httpClient) (ctx : context).

Lemma SendMultiple_app (l1 l2 : list any) (s : state) :
  SendMultiple c ctx (l1 ++ l2) s =
    let (r, s1) := SendMultiple c ctx l1 s in
    match r with
    | Some e => (Some e, s1)
    | None => SendMultiple c ctx l2 s1
    end.
Proof.
  revert s. induction l1 as [|d l1 IH]; intros s; [reflexivity|].
  cbn [app SendMultiple]. unfold bind.
  destruct (Send c ctx d s) as [[e|] s1]; [reflexivity | apply IH].
Qed.

(** What one Send does to the trace and to the store. *)
Lemma Send_effects (d : any) (s : state) :
  exists evs,
    st_trace (snd (Send c ctx d s)) = (st_trace s ++ evs)%list /\
    (sends evs <= Z.to_nat (maxRetries c + 1))%nat /\
    st_heap (snd (Send c ctx d s)) = st_heap s /\
    Forall (fun ev => forall req, ev = EvDo req ->
              req_method req = "POST" /\ is_Some (req_body req)) evs.
Proof.
  unfold Send, Post, doRequest.
  destruct (retry_loop_shape c ctx "POST" "/sensors" (Some d) None
              (Z.to_nat (maxRetries c + 1)) 0 None s)
    as (evs & k & Htr & Hk & _ & Hle & _ & Hready & _).
  exists evs. split; [exact Htr|]. split; [lia|]. split.
  - apply (retry_loop_preserves c ctx "POST" "/sensors" (Some d) None
             (fun s' => st_heap s' = st_heap s)); [| |reflexivity].
    + intros s0 Hs0. rewrite <- Hs0. apply map_eq. intros l.
      apply attempt_heap_frame. discriminate.
    + intros s0 w ev _ Hs0. exact Hs0.
  - eapply Forall_impl; [exact Hready|].
    intros ev Hev req ->.
    destruct (Hev req eq_refl)
      as (reqURL & bodyReader & _ & (jsonBody & _ & ->) & _ & ->).
    cbn. split; [reflexivity | eauto].
Qed.

(** X19.  SendMultiple sends the readings in order and stops at the first
    one that fails: it returns that error, and the readings after it are
    neither serialized nor sent (the state is the one the failing Send
    left). *)
Theorem SendMultiple_stops_at_first_failure (pre post : list any) (d : any)
    (s s1 s2 : state) (e : sdkerror) :
  SendMultiple c ctx pre s = (None, s1) ->
  Send c ctx d s1 = (Some e, s2) ->
  SendMultiple c ctx (pre ++ d :: post) s = (Some e, s2).
Proof.
  intros Hpre Hd. rewrite SendMultiple_app, Hpre.
  cbn [SendMultiple]. unfold bind. rewrite Hd. reflexivity.
Qed.

(** X20.  Whatever happens, SendMultiple puts at most maxRetries+1 requests
    per reading on the network, each of them a POST with a body, and it
    writes to no destination. *)
Theorem SendMultiple_bounds (data : list any) (s : state) :
  exists evs,
    st_trace (snd (SendMultiple c ctx data s)) = (st_trace s ++ evs)%list /\
    (sends evs <= length data * Z.to_nat (maxRetries c + 1))%nat /\
    st_heap (snd (SendMultiple c ctx data s)) = st_heap s /\
    Forall (fun ev => forall req, ev = EvDo req ->
              req_method req = "POST" /\ is_Some (req_body req)) evs.
Proof.
  revert s. induction data as [|d data IH]; intros s.
  - exists []. cbn. rewrite app_nil_r. repeat split; auto.
  - cbn [SendMultiple]. unfold bind.
    destruct (Send_effects d s) as (evs1 & Htr1 & Hle1 & Hheap1 & Hpost1).
    destruct (Send c ctx d s) as [r s1]. cbn [snd] in *.
    destruct r as [e|].
    + exists evs1. cbn [snd length]. repeat split; auto. lia.
    + destruct (IH s1) as (evs2 & Htr2 & Hle2 & Hheap2 & Hpost2).
      exists (evs1 ++ evs2)%list.
      split; [rewrite Htr2, Htr1, <- app_assoc; reflexivity|].
      split; [rewrite sends_app; cbn [length]; lia|].
      split; [rewrite Hheap2; exact Hheap1|].
      apply Forall_app. auto.
Qed.

End Sensors.

(** ** The further properties on scripted runs *)

Section MoreRuns.
Import Scripted Scenarios.

Lemma client_error_ends_call_witness :
  let E := not_found_server in
  let run := @doRequest E (api E) tt "GET" "/layouts" None None
               (start E (0, 0)%nat) in
  exists e,
    fst run = Some (ErrorPtr e) /\
    Error.Code e = ErrNotFound /\
    Error.StatusCode e = 404 /\
    schedule (st_trace (snd run)) = [Attempt 0] /\
    sends (st_trace (snd run)) = 1%nat.
Proof.
  cbv zeta.
  destruct (@client_error_ends_call not_found_server (api not_found_server)
              tt "GET" "/layouts" None None
              (mkRequest "GET" (ProdUIURL +:+ "/layouts") None
                 (@set_headers not_found_server (api not_found_server)))
              404 (wire body_empty_object) (1, 0)%nat
              (start not_found_server (0, 0)%nat))
    as [Hcall (e & He & Hc & Hs)].
  - exists (ProdUIURL +:+ "/layouts"), None. repeat split; reflexivity.
  - reflexivity.
  - lia.
  - vm_compute. reflexivity.
  - cbn. lia.
  - exists e. rewrite Hcall. cbn [fst snd st_trace].
    rewrite He, Hc, Hs. repeat split; reflexivity.
Defined.

Lemma response_decoded_witness :
  let E := ok_server in
  let run := @doRequest E (api E) tt "GET" "/layouts" None (Some 1%positive)
               (start_with E (0, 0)%nat 1%positive "previous") in
  fst run = None /\ st_heap (snd run) !! 1%positive = Some "ok".
Proof.
  cbv zeta.
  rewrite (@response_decoded ok_server (api ok_server) tt "GET" "/layouts"
             None (Some 1%positive)
             (mkRequest "GET" (ProdUIURL +:+ "/layouts") None
                (@set_headers ok_server (api ok_server)))
             200 (wire body_ok) (1, 0)%nat
             (start_with ok_server (0, 0)%nat 1%positive "previous")
             1%positive "previous" "ok").
  - split; reflexivity.
  - reflexivity.
  - exists (ProdUIURL +:+ "/layouts"), None. repeat split; reflexivity.
  - reflexivity.
  - lia.
  - discriminate.
  - reflexivity.
  - reflexivity.
  - cbn. lia.
Defined.

Lemma undecodable_response_resent_witness :
  let E := garbled_server in
  let run := @doRequest E (api E) tt "GET" "/layouts" None (Some 1%positive)
               (start_with E (0, 0)%nat 1%positive "previous") in
  exists evs e,
    st_trace (snd run) = evs /\
    sends evs = 4%nat /\
    schedule evs
      = [Attempt 0; Wait 1000000000; Attempt 1; Wait 2000000000; Attempt 2;
         Wait 3000000000; Attempt 3] /\
    fst run = Some (ErrorPtr e) /\
    Error.Code e = ErrInternalServer /\
    Error.Message e = "failed to parse response" /\
    Error.StatusCode e = 0.
Proof.
  refine (@undecodable_response_resent garbled_server (api garbled_server)
            tt "GET" "/layouts" None (Some 1%positive)
            (mkRequest "GET" (ProdUIURL +:+ "/layouts") None
               (@set_headers garbled_server (api garbled_server)))
            200 (wire body_plain_text) 1%positive
            (start_with garbled_server (0, 0)%nat 1%positive "previous")
            eq_refl _ (fun _ => eq_refl) _ _ _ (fun _ _ => eq_refl) _).
  - exists (ProdUIURL +:+ "/layouts"), None. repeat split; reflexivity.
  - lia.
  - discriminate.
  - intros v. vm_compute. discriminate.
  - cbn. unfold max_int. lia.
Defined.

Lemma other_destinations_untouched_witness :
  let E := ok_server in
  let s := @mkState E (0, 0)%nat
             (<[2%positive := "other"]> {[ 1%positive := "previous" ]}) [] in
  let run := @doRequest E (api E) tt "GET" "/layouts" None (Some 1%positive)
               s in
  st_heap (snd run) !! 2%positive = Some "other".
Proof.
  cbv zeta.
  rewrite (@other_destinations_untouched ok_server (api ok_server) tt "GET"
             "/layouts" None (Some 1%positive)).
  - reflexivity.
  - discriminate.
Defined.

Lemma credential_update_as_last_option_witness :
  let E := failing_server in
  let getenv := fun _ : string => "" in
  let opts := [@WithTimeout E 5000000000] in
  exists cli,
    @New E getenv opts = inr cli /\
    @New E getenv (opts ++ [@WithToken E "tok"])%list
      = inr (@Client_SetToken E "tok" cli) /\
    @New E getenv (opts ++ [@WithAdminSecret E "secret"])%list
      = inr (@Client_SetAdminSecret E "secret" cli).
Proof.
  cbv zeta. eexists. split; [reflexivity|].
  destruct (@credential_update_as_last_option failing_server
              (fun _ => "") [@WithTimeout failing_server 5000000000]
              "tok" "secret" _ eq_refl) as (Ht & Hs & _).
  split; [exact Ht | exact Hs].
Defined.

Lemma SendMultiple_stops_at_first_failure_witness :
  let E := second_rejected in
  exists e s2,
    @SendMultiple E (api E) tt
      ([PString "a"] ++ PString "b" :: [PString "c"])%list
      (start E (0, 0)%nat) = (Some e, s2) /\
    status_of e = 400 /\
    sends (st_trace s2) = 2%nat.
Proof.
  cbv zeta. eexists. eexists. split.
  - eapply (@SendMultiple_stops_at_first_failure second_rejected
              (api second_rejected) tt [PString "a"] [PString "c"]
              (PString "b") (start second_rejected (0, 0)%nat)).
    + vm_compute. reflexivity.
    + vm_compute. reflexivity.
  - split; vm_compute; reflexivity.
Defined.

End MoreRuns.
